(** * CommandRunner: the deployment view and its live output log

  A shallow embedding of the React component [CommandRunner] in its two
  revisions: the one that collapses progress lines in place (the revision
  with [findLastIndex]) and the earlier one in [src/App.tsx] that only
  appends.  React state is an explicit record, the setters, [fetch],
  [Date.now] and [console] are the actions of a small free monad, and a
  handler is a program of that monad run against the current state. *)

From Stdlib Require Import ZArith NArith String Ascii DecimalString Lia.
From stdpp Require Import base list option.

Open Scope Z_scope.

(** ** JavaScript values *)

Module Js.

(** A JavaScript string is a sequence of UTF-16 code units. *)
Abbreviation str := (list N).

Definition lit (s : string) : str := N_of_ascii <$> list_ascii_of_string s.

(** [!!s] for a string: only the empty string is falsy. *)
Definition truthy (s : str) : bool :=
  match s with [] => false | _ :: _ => true end.

(** [!!v] for an optional string field ([undefined], [null] or a string). *)
Definition truthy_opt (v : option str) : bool :=
  match v with Some s => truthy s | None => false end.

(** [!!v] for an optional boolean field. *)
Definition truthy_flag (v : option bool) : bool :=
  match v with Some b => b | None => false end.

(** [v || d] for an optional string field. *)
Definition or_else (v : option str) (d : str) : str :=
  match v with
  | Some s => if truthy s then s else d
  | None => d
  end.

(** The code units [String.prototype.trim] strips: WhiteSpace and
    LineTerminator of ECMA-262 (all of them in the basic plane). *)
Definition is_white_space (c : N) : bool :=
  ((9 <=? c) && (c <=? 13) || (c =? 32) || (c =? 160) || (c =? 5760)
   || (8192 <=? c) && (c <=? 8202) || (c =? 8232) || (c =? 8233)
   || (c =? 8239) || (c =? 8287) || (c =? 12288) || (c =? 65279))%N.

Fixpoint trimStart (s : str) : str :=
  match s with
  | c :: s' => if is_white_space c then trimStart s' else s
  | [] => []
  end.

Definition trimEnd (s : str) : str := reverse (trimStart (reverse s)).

Definition trim (s : str) : str := trimEnd (trimStart s).

(** A JSON value as a socket payload field can carry it. Numbers are the
    integers: the only number the component reads is a process exit code. *)
Inductive value : Type :=
| VNumber (n : Z)
| VString (s : str)
| VBoolean (b : bool)
| VNull.

(** [typeof v === 'number'], with the number when it is one. *)
Definition as_number (v : option value) : option Z :=
  match v with Some (VNumber n) => Some n | _ => None end.

(** [`${n}`] for a safe integer [n]: its decimal digits, with a minus sign
    when negative. Beyond the safe integers a number prints the shortest
    digits that read back to it, in exponent notation from 1e21 on, and
    this is not its text. *)
Definition number_to_string (n : Z) : str :=
  lit (NilZero.string_of_int (Z.to_int n)).

(** [Number.isSafeInteger(n)] for an integer. *)
Definition is_safe_integer (n : Z) : bool := Z.abs n <? 2 ^ 53.

End Js.

(** ** The REST collaborator *)

Module ApiResponse.
Record t : Type := mk {
  success : bool;
  commandId : option Js.str;
  error : option Js.str;
  repos : option (list Js.str)
}.
End ApiResponse.

(** The three calls the component makes, by endpoint and JSON body. *)
Inductive request : Type :=
| GetRepos
| PostDeploy (gitUrl branch : Js.str)
| PostStop (commandId : Js.str).

(** What a [catch] clause receives: an [Error] with its message, or
  anything else. *)
Inductive thrown : Type :=
| ErrorObject (message : Js.str)
| NotAnError.

(** [await fetch(..)] followed by [await response.json()]: either both
  resolve to the decoded body, or one of them rejects. *)
Inductive fetch_outcome : Type :=
| Resolved (data : ApiResponse.t)
| Rejected (err : thrown).

(** What can be seen of a handler's run from outside the component. *)
Inductive obs : Type :=
| NetCall (req : request)
| ConsoleLog (msg : Js.str)
| ConsoleError (msg : Js.str).

(** The environment of one handler run: the clock [Date.now()] reads and
  the remote end's answer to each request. *)
Record world : Type := mkWorld {
clock : Z;
network : request -> fetch_outcome
}.

(** ** React state and the handler monad *)

Section Component.

(** The revision's [OutputMessage]. *)
Context {M : Type}.

Record AppState : Type := mkAppState {
  gitUrl : Js.str;
  branch : Js.str;
  output : list M;
  activeCommandId : option Js.str;
  deployedRepos : list Js.str;
  isLoading : bool;
  isConnected : bool
}.

Inductive action : Type -> Type :=
| SetGitUrl (v : Js.str) : action unit
| SetBranch (v : Js.str) : action unit
| SetOutput (f : list M -> list M) : action unit
| SetActiveCommandId (v : option Js.str) : action unit
| SetDeployedRepos (v : list Js.str) : action unit
| SetIsLoading (v : bool) : action unit
| SetIsConnected (v : bool) : action unit
| DateNow : action Z
| Log (msg : Js.str) : action unit
| LogError (msg : Js.str) : action unit.

(** A handler: it returns, performs a synchronous action and goes on, or
    awaits the answer to a request ([await fetch(..)] with the decoding of
    the body) and goes on from the answer. *)
Inductive prog (A : Type) : Type :=
| Ret (a : A)
| Vis {X : Type} (e : action X) (k : X -> prog A)
| Await (req : request) (k : fetch_outcome -> prog A).

Arguments Ret {A} a.
Arguments Vis {A X} e k.
Arguments Await {A} req k.

Fixpoint bind {A B : Type} (p : prog A) (f : A -> prog B) : prog B :=
  match p with
  | Ret a => f a
  | Vis e k => Vis e (fun x => bind (k x) f)
  | Await req k => Await req (fun r => bind (k r) f)
  end.

Definition trigger {X : Type} (e : action X) : prog X := Vis e Ret.

(** One action against the state. *)
Definition perform {X : Type} (w : world) (e : action X) (st : AppState)
  : X * AppState * list obs :=
  match e in action X return X * AppState * list obs with
  | SetGitUrl v =>
      (tt, mkAppState v (branch st) (output st) (activeCommandId st)
             (deployedRepos st) (isLoading st) (isConnected st), [])
  | SetBranch v =>
      (tt, mkAppState (gitUrl st) v (output st) (activeCommandId st)
             (deployedRepos st) (isLoading st) (isConnected st), [])
  | SetOutput f =>
      (tt, mkAppState (gitUrl st) (branch st) (f (output st))
             (activeCommandId st) (deployedRepos st) (isLoading st)
             (isConnected st), [])
  | SetActiveCommandId v =>
      (tt, mkAppState (gitUrl st) (branch st) (output st) v
             (deployedRepos st) (isLoading st) (isConnected st), [])
  | SetDeployedRepos v =>
      (tt, mkAppState (gitUrl st) (branch st) (output st)
             (activeCommandId st) v (isLoading st) (isConnected st), [])
  | SetIsLoading v =>
      (tt, mkAppState (gitUrl st) (branch st) (output st)
             (activeCommandId st) (deployedRepos st) v (isConnected st), [])
  | SetIsConnected v =>
      (tt, mkAppState (gitUrl st) (branch st) (output st)
             (activeCommandId st) (deployedRepos st) (isLoading st) v, [])
  | DateNow => (clock w, st, [])
  | Log msg => (tt, st, [ConsoleLog msg])
  | LogError msg => (tt, st, [ConsoleError msg])
  end.

(** A handler run to completion, each request answered by [w] at once
    (nothing else is delivered while it is in flight). *)
Fixpoint run {A : Type} (w : world) (p : prog A) (st : AppState)
  : A * AppState * list obs :=
  match p with
  | Ret a => (a, st, [])
  | Vis e k =>
      let '(x, st1, tr1) := perform w e st in
      let '(a, st2, tr2) := run w (k x) st1 in
      (a, st2, tr1 ++ tr2)
  | Await req k =>
      let '(a, st2, tr2) := run w (k (network w req)) st in
      (a, st2, NetCall req :: tr2)
  end.

(** Where a handler stands when it yields to the event loop. *)
Inductive paused (A : Type) : Type :=
| Finished (a : A)
| Awaiting (req : request) (k : fetch_outcome -> prog A).

Arguments Finished {A} a.
Arguments Awaiting {A} req k.

(** A handler run up to its first [await]: the request has been sent and
    the rest waits for the answer. *)
Fixpoint until_await {A : Type} (w : world) (p : prog A) (st : AppState)
  : paused A * AppState * list obs :=
  match p with
  | Ret a => (Finished a, st, [])
  | Vis e k =>
      let '(x, st1, tr1) := perform w e st in
      let '(a, st2, tr2) := until_await w (k x) st1 in
      (a, st2, tr1 ++ tr2)
  | Await req k => (Awaiting req k, st, [NetCall req])
  end.

Definition final {A : Type} (r : A * AppState * list obs) : AppState :=
  snd (fst r).

Definition trace {A : Type} (r : A * AppState * list obs) : list obs :=
  snd r.

Definition is_net_call (o : obs) : bool :=
  match o with NetCall _ => true | _ => false end.

Definition net_calls (tr : list obs) : list obs :=
  List.filter is_net_call tr.

End Component.

Arguments AppState M : clear implicits.
Arguments action M : clear implicits.
Arguments prog M A : clear implicits.
Arguments Ret {M A} a.
Arguments Vis {M A X} e k.
Arguments Await {M A} req k.
Arguments paused M A : clear implicits.
Arguments Finished {M A} a.
Arguments Awaiting {M A} req k.

#[global] Instance prog_ret {M} : MRet (prog M) := fun A a => Ret a.
#[global] Instance prog_bind {M} : MBind (prog M) := fun A B f p => bind p f.

(** The setters and collaborators as the handlers call them. *)

Section Primitives.

Context {M : Type}.

Definition setGitUrl (v : Js.str) : prog M unit := trigger (SetGitUrl v).
Definition setBranch (v : Js.str) : prog M unit := trigger (SetBranch v).
Definition setOutput (f : list M -> list M) : prog M unit :=
  trigger (SetOutput f).
Definition setActiveCommandId (v : option Js.str) : prog M unit :=
  trigger (SetActiveCommandId v).
Definition setDeployedRepos (v : list Js.str) : prog M unit :=
  trigger (SetDeployedRepos v).
Definition setIsLoading (v : bool) : prog M unit := trigger (SetIsLoading v).
Definition setIsConnected (v : bool) : prog M unit :=
  trigger (SetIsConnected v).
Definition date_now : prog M Z := trigger DateNow.
Definition fetch (req : request) : prog M fetch_outcome := Await req Ret.
Definition console_log (msg : Js.str) : prog M unit := trigger (Log msg).
Definition console_error (msg : Js.str) : prog M unit :=
  trigger (LogError msg).

(** [fetchDeployedRepos]: the same in both revisions. *)
Definition fetchDeployedRepos : prog M unit :=
  r ← fetch GetRepos;
  match r with
  | Resolved data =>
      match ApiResponse.repos data with
      | Some repos => setDeployedRepos repos
      | None => mret tt
      end
  | Rejected _ => console_error (Js.lit "Failed to fetch repos:")
  end.

(** [error instanceof Error ? error.message : 'Unknown error'] *)
Definition error_message (err : thrown) : Js.str :=
  match err with
  | ErrorObject message => message
  | NotAnError => Js.lit "Unknown error"
  end.

End Primitives.

(** ** The revision with in-place progress lines *)

Module OutputMessage.
Record t : Type := mk {
  id : Z;
  text : Js.str;
  type : Js.str;
  isProgress : option bool;
  replaceLast : option bool
}.
End OutputMessage.

Module SocketMessage.
Record t : Type := mk {
  commandId : Js.str;
  output : option Js.str;
  outputType : option Js.str;
  exitCode : option Js.value;
  isProgress : option bool;
  replaceLast : option bool
}.
End SocketMessage.

Module CommandRunner.

Abbreviation state := (AppState OutputMessage.t).
Abbreviation handler := (prog OutputMessage.t unit).

(** The loop of [findLastIndex] with [i + 1 = n]: every index it reads is
    below [array.length]. *)
Fixpoint findLastIndex_from {T : Type} (array : list T)
    (predicate : T -> bool) (n : nat) : Z :=
  match n with
  | O => -1
  | S i =>
      match array !! i with
      | Some v =>
          if predicate v then Z.of_nat i
          else findLastIndex_from array predicate i
      | None => findLastIndex_from array predicate i
      end
  end.

Definition findLastIndex {T : Type} (array : list T) (predicate : T -> bool)
  : Z :=
  findLastIndex_from array predicate (length array).

(** [msg => msg.isProgress], the predicate the listener scans with. *)
Definition isProgressEntry (msg : OutputMessage.t) : bool :=
  Js.truthy_flag (OutputMessage.isProgress msg).

(** The entry built from a [commandOutput] payload. *)
Definition outputMessage (now : Z) (data : SocketMessage.t)
  : OutputMessage.t :=
  OutputMessage.mk now
    (Js.or_else (SocketMessage.output data) [])
    (Js.or_else (SocketMessage.outputType data) (Js.lit "stdout"))
    (SocketMessage.isProgress data)
    (SocketMessage.replaceLast data).

(** [data.isProgress && data.replaceLast] *)
Definition replacesProgress (data : SocketMessage.t) : bool :=
  Js.truthy_flag (SocketMessage.isProgress data)
  && Js.truthy_flag (SocketMessage.replaceLast data).

(** The updater passed to [setOutput] by the [commandOutput] listener. *)
Definition commandOutput_update (now : Z) (data : SocketMessage.t)
    (prev : list OutputMessage.t) : list OutputMessage.t :=
  let newOutput := prev in
  if replacesProgress data
  then
    let lastProgressIndex :=
      findLastIndex newOutput isProgressEntry in
    if negb (lastProgressIndex =? -1)
    then <[Z.to_nat lastProgressIndex := outputMessage now data]> newOutput
    else newOutput ++ [outputMessage now data]
  else newOutput ++ [outputMessage now data].

Definition commandOutput (data : SocketMessage.t) : handler :=
  if Js.truthy_opt (SocketMessage.output data)
  then now ← date_now; setOutput (commandOutput_update now data)
  else mret tt.

(** The summary entry of a finished process; its text is the template
    literal's for a safe integer exit code (see [Js.number_to_string]). *)
Definition finishedMessage (now : Z) (exitCode : Z) : OutputMessage.t :=
  OutputMessage.mk now
    (Js.lit "Process finished with exit code: "
       ++ Js.number_to_string exitCode)
    (if exitCode =? 0 then Js.lit "success" else Js.lit "error")
    None None.

Definition commandFinished (data : SocketMessage.t) : handler :=
  match Js.as_number (SocketMessage.exitCode data) with
  | Some exitCode =>
      now ← date_now;
      setOutput (fun prev => prev ++ [finishedMessage now exitCode]);;
      setActiveCommandId None;;
      setIsLoading false;;
      fetchDeployedRepos
  | None => mret tt
  end.

(** The entry both failure branches of [deployRepo] append. *)
Definition errorMessage (now : Z) (what : Js.str) : OutputMessage.t :=
  OutputMessage.mk now (Js.lit "Error: " ++ what) (Js.lit "error") None None.

(** [deployRepo] from the answer of [/api/deploy] on. *)
Definition deployRepo_settle (r : fetch_outcome) : handler :=
  match r with
  | Resolved data =>
      if ApiResponse.success data
         && Js.truthy_opt (ApiResponse.commandId data)
      then setActiveCommandId (ApiResponse.commandId data)
      else
        now ← date_now;
        setOutput (fun prev =>
          prev ++ [errorMessage now
                     (Js.or_else (ApiResponse.error data)
                        (Js.lit "Unknown error"))]);;
        setIsLoading false
  | Rejected err =>
      now ← date_now;
      setOutput (fun prev => prev ++ [errorMessage now (error_message err)]);;
      setIsLoading false
  end.

(** [deployRepo] as the render with state [snap] closed over it. *)
Definition deployRepo (snap : state) : handler :=
  if negb (Js.truthy (Js.trim (gitUrl snap))) then mret tt
  else
    setOutput (fun _ => []);;
    setIsLoading true;;
    r ← fetch (PostDeploy (Js.trim (gitUrl snap)) (Js.trim (branch snap)));
    deployRepo_settle r.

Definition stopProcess (snap : state) : handler :=
  match activeCommandId snap with
  | Some commandId =>
      if negb (Js.truthy commandId) then mret tt
      else
        r ← fetch (PostStop commandId);
        match r with
        | Resolved data =>
            if negb (ApiResponse.success data)
            then console_error (Js.lit "Failed to stop process:")
            else mret tt
        | Rejected _ => console_error (Js.lit "Failed to stop process:")
        end
  | None => mret tt
  end.

(** What reaches the component: socket messages and user input. *)
Inductive event : Type :=
| OnConnect
| OnDisconnect
| OnCommandOutput (data : SocketMessage.t)
| OnCommandFinished (data : SocketMessage.t)
| OnGitUrlChange (v : Js.str)
| OnBranchChange (v : Js.str)
| OnButtonClick.

(** The button: [disabled={isLoading && !activeCommandId}] and
    [onClick={activeCommandId ? stopProcess : deployRepo}]. *)
Definition onClick (snap : state) : handler :=
  if isLoading snap && negb (Js.truthy_opt (activeCommandId snap))
  then mret tt
  else if Js.truthy_opt (activeCommandId snap) then stopProcess snap
  else deployRepo snap.

Definition handle (snap : state) (e : event) : handler :=
  match e with
  | OnConnect =>
      console_log (Js.lit "Connected to Socket.IO server");;
      setIsConnected true
  | OnDisconnect =>
      console_log (Js.lit "Disconnected from Socket.IO server");;
      setIsConnected false
  | OnCommandOutput data => commandOutput data
  | OnCommandFinished data => commandFinished data
  | OnGitUrlChange v => setGitUrl v
  | OnBranchChange v => setBranch v
  | OnButtonClick => onClick snap
  end.

(** One delivered event: the handler of the current render runs against
    the current state. *)
Definition step (w : world) (e : event) (st : state) : state :=
  final (run w (handle st e) st).

(** A sequence of delivered events, each with the environment it meets. *)
Fixpoint steps (evs : list (world * event)) (st : state) : state :=
  match evs with
  | [] => st
  | (w, e) :: evs' => steps evs' (step w e st)
  end.

(** [data.success && data.commandId] on the answer of [/api/deploy]; a
    rejected request is not accepted either. *)
Definition deployAccepted (r : fetch_outcome) : bool :=
  match r with
  | Resolved data =>
      ApiResponse.success data && Js.truthy_opt (ApiResponse.commandId data)
  | Rejected _ => false
  end.

(** The events the socket delivers, as opposed to user input. *)
Definition isSocketEvent (e : event) : bool :=
  match e with
  | OnConnect | OnDisconnect | OnCommandOutput _ | OnCommandFinished _ => true
  | OnGitUrlChange _ | OnBranchChange _ | OnButtonClick => false
  end.

(** The same payload under another command identifier. *)
Definition withCommandId (commandId : Js.str) (data : SocketMessage.t)
  : SocketMessage.t :=
  SocketMessage.mk commandId (SocketMessage.output data)
    (SocketMessage.outputType data) (SocketMessage.exitCode data)
    (SocketMessage.isProgress data) (SocketMessage.replaceLast data).

(** The same state under another active command. *)
Definition withActiveCommandId (v : option Js.str) (st : state) : state :=
  mkAppState (gitUrl st) (branch st) (output st) v (deployedRepos st)
    (isLoading st) (isConnected st).

(** The entries the [commandFinished] listener appends. *)
Definition isTerminalEntry (msg : OutputMessage.t) : Prop :=
  exists now exitCode, msg = finishedMessage now exitCode.

(** A sequence of [commandOutput] payloads as delivered events. *)
Definition outputEvents (evs : list (world * SocketMessage.t))
  : list (world * event) :=
  (fun we => (fst we, OnCommandOutput (snd we))) <$> evs.

(** A progress update with text: [isProgress] and [replaceLast] are both
    set. *)
Definition progressUpdate (we : world * SocketMessage.t) : Prop :=
  Js.truthy_opt (SocketMessage.output (snd we)) = true
  /\ SocketMessage.isProgress (snd we) = Some true
  /\ SocketMessage.replaceLast (snd we) = Some true.

End CommandRunner.

(** ** The earlier revision, [src/App.tsx]: every line is appended *)

Module AppTsx.

Module OutputMessage.
Record t : Type := mk {
  id : Z;
  text : Js.str;
  type : Js.str
}.
End OutputMessage.

Module SocketMessage.
Record t : Type := mk {
  commandId : Js.str;
  output : option Js.str;
  type : option Js.str;
  exitCode : option Js.value
}.
End SocketMessage.

Abbreviation state := (AppState OutputMessage.t).
Abbreviation handler := (prog OutputMessage.t unit).

(** The entry built from a [commandOutput] payload with text [text]. *)
Definition outputMessage (now : Z) (text : Js.str) (data : SocketMessage.t)
  : OutputMessage.t :=
  OutputMessage.mk now text
    (Js.or_else (SocketMessage.type data) (Js.lit "stdout")).

Definition commandOutput (data : SocketMessage.t) : handler :=
  match SocketMessage.output data with
  | Some text =>
      if Js.truthy text
      then
        now ← date_now;
        setOutput (fun prev => prev ++ [outputMessage now text data])
      else mret tt
  | None => mret tt
  end.

Definition finishedMessage (now : Z) (exitCode : Z) : OutputMessage.t :=
  OutputMessage.mk now
    (Js.lit "Process finished with exit code: "
       ++ Js.number_to_string exitCode)
    (if exitCode =? 0 then Js.lit "success" else Js.lit "error").

Definition commandFinished (data : SocketMessage.t) : handler :=
  match Js.as_number (SocketMessage.exitCode data) with
  | Some exitCode =>
      now ← date_now;
      setOutput (fun prev => prev ++ [finishedMessage now exitCode]);;
      setActiveCommandId None;;
      setIsLoading false;;
      fetchDeployedRepos
  | None => mret tt
  end.

(** The [commandOutput] listener over a sequence of payloads, each with
    the environment it meets. *)
Fixpoint commandOutputs (evs : list (world * SocketMessage.t)) (st : state)
  : state :=
  match evs with
  | [] => st
  | (w, data) :: evs' =>
      commandOutputs evs' (final (run w (commandOutput data) st))
  end.

End AppTsx.

(** ** What the component renders *)

Module View.

(** [a === b] on strings. *)
Fixpoint strictEquals (a b : Js.str) : bool :=
  match a, b with
  | [], [] => true
  | c :: a', d :: b' => (c =? d)%N && strictEquals a' b'
  | _, _ => false
  end.

(** The [switch] of [getOutputClassName], case by case; it is the same in
    both revisions. *)
Definition getOutputClassName (type : Js.str) : Js.str :=
  if strictEquals type (Js.lit "stderr") then Js.lit "text-red-400"
  else if strictEquals type (Js.lit "error") then Js.lit "text-red-400"
  else if strictEquals type (Js.lit "success") then Js.lit "text-green-400"
  else if strictEquals type (Js.lit "system") then Js.lit "text-blue-400"
  else Js.lit "text-green-400".

(** One rendered line of the log: its [key], [className] and text. *)
Record line : Type := mkLine {
  key : Z;
  className : Js.str;
  children : Js.str
}.

(** [output.map(({ id, text, type }) => <div ..>)] *)
Definition renderOutput (log : list OutputMessage.t) : list line :=
  (fun msg =>
     mkLine (OutputMessage.id msg)
       (getOutputClassName (OutputMessage.type msg))
       (OutputMessage.text msg)) <$> log.

Section Controls.

Context {M : Type}.

(** [disabled={isLoading && !activeCommandId}] *)
Definition buttonDisabled (st : AppState M) : bool :=
  isLoading st && negb (Js.truthy_opt (activeCommandId st)).

(** The caption of the button. *)
Definition buttonLabel (st : AppState M) : Js.str :=
  if isLoading st then Js.lit "Deploying..."
  else if Js.truthy_opt (activeCommandId st) then Js.lit "Stop Deployment"
  else Js.lit "Start Deployment".

(** The colour classes of the button. *)
Definition buttonColour (st : AppState M) : Js.str :=
  if isLoading st then Js.lit "bg-gray-400"
  else if Js.truthy_opt (activeCommandId st)
  then Js.lit "bg-red-500 hover:bg-red-600"
  else Js.lit "bg-green-500 hover:bg-green-600".

(** The caption next to the connection light. *)
Definition connectionLabel (st : AppState M) : Js.str :=
  if isConnected st then Js.lit "Connected" else Js.lit "Disconnected".

(** [deployedRepos.length > 0 && ..]: the names listed, if any section
    is shown at all. *)
Definition renderRepos (st : AppState M) : option (list Js.str) :=
  match deployedRepos st with
  | [] => None
  | repos => Some repos
  end.

(** The [useState] defaults. *)
Definition initialState : AppState M :=
  mkAppState [] (Js.lit "main") [] None [] false false.

(** What the mount effect does to the state: the first repo-list fetch
    (the socket it opens acts through the listeners only). *)
Definition mount : prog M unit := fetchDeployedRepos.

End Controls.

End View.

(** ** The event loop: requests stay in flight between deliveries *)

Module EventLoop.

Import CommandRunner.

(** The component between two turns of the event loop: its state and the
    continuations waiting for an answer, oldest first. *)
Record machine : Type := mkMachine {
  app : state;
  inFlight : list (request * (fetch_outcome -> handler))
}.

(** What a turn of the loop brings: an event for a listener, or the
    answer to the request in flight at position [i]. *)
Inductive arrival : Type :=
| Delivered (e : event)
| Answered (i : nat) (r : fetch_outcome).

(** A handler has run up to its first [await]: it is done, or it joins
    the requests in flight. *)
Definition park (r : paused OutputMessage.t unit * state * list obs)
    (waiting : list (request * (fetch_outcome -> handler))) : machine :=
  match r with
  | (Finished _, st, _) => mkMachine st waiting
  | (Awaiting req k, st, _) => mkMachine st (waiting ++ [(req, k)])
  end.

Definition arrive (w : world) (a : arrival) (m : machine) : machine :=
  match a with
  | Delivered e =>
      park (until_await w (handle (app m) e) (app m)) (inFlight m)
  | Answered i r =>
      match inFlight m !! i with
      | Some (_, k) =>
          park (until_await w (k r) (app m)) (delete i (inFlight m))
      | None => m
      end
  end.

Fixpoint arrivals (l : list (world * arrival)) (m : machine) : machine :=
  match l with
  | [] => m
  | (w, a) :: l' => arrivals l' (arrive w a m)
  end.

(** The component once mounted: the first repo-list request is out. *)
Definition boot (w : world) : machine :=
  park (until_await w View.mount View.initialState) [].

(** What the state satisfies at every turn: the active command, when
    there is one, is not the empty string, and every line of the log has
    a text and a kind. *)
Definition wellFormed (st : state) : Prop :=
  activeCommandId st <> Some []
  /\ Forall (fun msg => OutputMessage.text msg <> []
                        /\ OutputMessage.type msg <> []) (output st).

(** A continuation that, whatever the answer and the state it meets,
    finishes without a further [await] and keeps the state well formed. *)
Definition settles (k : fetch_outcome -> handler) : Prop :=
  forall (w : world) (r : fetch_outcome) (st : state),
    wellFormed st ->
    exists st' tr,
      until_await w (k r) st = (Finished tt, st', tr) /\ wellFormed st'.

Definition sound (m : machine) : Prop :=
  wellFormed (app m) /\ Forall (fun rk => settles (snd rk)) (inFlight m).

End EventLoop.

(** ** The rest of [src/App.tsx] *)

Module AppTsxController.

Import AppTsx.

Definition errorMessage (now : Z) (what : Js.str) : OutputMessage.t :=
  OutputMessage.mk now (Js.lit "Error: " ++ what) (Js.lit "error").

Definition deployRepo_settle (r : fetch_outcome) : handler :=
  match r with
  | Resolved data =>
      if ApiResponse.success data
         && Js.truthy_opt (ApiResponse.commandId data)
      then setActiveCommandId (ApiResponse.commandId data)
      else
        now ← date_now;
        setOutput (fun prev =>
          prev ++ [errorMessage now
                     (Js.or_else (ApiResponse.error data)
                        (Js.lit "Unknown error"))]);;
        setIsLoading false
  | Rejected err =>
      now ← date_now;
      setOutput (fun prev => prev ++ [errorMessage now (error_message err)]);;
      setIsLoading false
  end.

Definition deployRepo (snap : state) : handler :=
  if negb (Js.truthy (Js.trim (gitUrl snap))) then mret tt
  else
    setOutput (fun _ => []);;
    setIsLoading true;;
    r ← fetch (PostDeploy (Js.trim (gitUrl snap)) (Js.trim (branch snap)));
    deployRepo_settle r.

Definition stopProcess (snap : state) : handler :=
  match activeCommandId snap with
  | Some commandId =>
      if negb (Js.truthy commandId) then mret tt
      else
        r ← fetch (PostStop commandId);
        match r with
        | Resolved data =>
            if negb (ApiResponse.success data)
            then console_error (Js.lit "Failed to stop process:")
            else mret tt
        | Rejected _ => console_error (Js.lit "Failed to stop process:")
        end
  | None => mret tt
  end.

Inductive event : Type :=
| OnConnect
| OnDisconnect
| OnCommandOutput (data : SocketMessage.t)
| OnCommandFinished (data : SocketMessage.t)
| OnGitUrlChange (v : Js.str)
| OnBranchChange (v : Js.str)
| OnButtonClick.

Definition onClick (snap : state) : handler :=
  if isLoading snap && negb (Js.truthy_opt (activeCommandId snap))
  then mret tt
  else if Js.truthy_opt (activeCommandId snap) then stopProcess snap
  else deployRepo snap.

Definition handle (snap : state) (e : event) : handler :=
  match e with
  | OnConnect =>
      console_log (Js.lit "Connected to Socket.IO server");;
      setIsConnected true
  | OnDisconnect =>
      console_log (Js.lit "Disconnected from Socket.IO server");;
      setIsConnected false
  | OnCommandOutput data => commandOutput data
  | OnCommandFinished data => commandFinished data
  | OnGitUrlChange v => setGitUrl v
  | OnBranchChange v => setBranch v
  | OnButtonClick => onClick snap
  end.

Definition renderOutput (log : list OutputMessage.t) : list View.line :=
  (fun msg =>
     View.mkLine (OutputMessage.id msg)
       (View.getOutputClassName (OutputMessage.type msg))
       (OutputMessage.text msg)) <$> log.

End AppTsxController.

(** ** The two revisions side by side *)

(** A [commandOutput] or [commandFinished] payload as it travels, with
    every field either revision reads. *)
Module Wire.
Record t : Type := mk {
  commandId : Js.str;
  output : option Js.str;
  type : option Js.str;
  outputType : option Js.str;
  exitCode : option Js.value;
  isProgress : option bool;
  replaceLast : option bool
}.

(** What the later revision reads of it. *)
Definition later (p : t) : SocketMessage.t :=
  SocketMessage.mk (commandId p) (output p) (outputType p) (exitCode p)
    (isProgress p) (replaceLast p).

(** What [src/App.tsx] reads of it. *)
Definition earlier (p : t) : AppTsx.SocketMessage.t :=
  AppTsx.SocketMessage.mk (commandId p) (output p) (type p) (exitCode p).
End Wire.

Module Revisions.

(** An entry of the later revision without its flags. *)
Definition forgetMessage (msg : OutputMessage.t) : AppTsx.OutputMessage.t :=
  AppTsx.OutputMessage.mk (OutputMessage.id msg) (OutputMessage.text msg)
    (OutputMessage.type msg).

(** A payload as the earlier revision reads it: the kind travels in
    [type] there and in [outputType] later, the flags are not read. *)
Definition forgetPayload (data : SocketMessage.t) : AppTsx.SocketMessage.t :=
  AppTsx.SocketMessage.mk (SocketMessage.commandId data)
    (SocketMessage.output data) (SocketMessage.outputType data)
    (SocketMessage.exitCode data).

Definition forgetEvent (e : CommandRunner.event) : AppTsxController.event :=
  match e with
  | CommandRunner.OnConnect => AppTsxController.OnConnect
  | CommandRunner.OnDisconnect => AppTsxController.OnDisconnect
  | CommandRunner.OnCommandOutput data =>
      AppTsxController.OnCommandOutput (forgetPayload data)
  | CommandRunner.OnCommandFinished data =>
      AppTsxController.OnCommandFinished (forgetPayload data)
  | CommandRunner.OnGitUrlChange v => AppTsxController.OnGitUrlChange v
  | CommandRunner.OnBranchChange v => AppTsxController.OnBranchChange v
  | CommandRunner.OnButtonClick => AppTsxController.OnButtonClick
  end.

Definition forgetState (st : CommandRunner.state) : AppTsx.state :=
  mkAppState (gitUrl st) (branch st) (forgetMessage <$> output st)
    (activeCommandId st) (deployedRepos st) (isLoading st) (isConnected st).

(** The events on which the later revision does what the earlier one
    does: all but a progress update that finds a progress line to
    replace. *)
Definition appendsOnly (e : CommandRunner.event) (st : CommandRunner.state)
  : bool :=
  match e with
  | CommandRunner.OnCommandOutput data =>
      negb (CommandRunner.replacesProgress data)
      || (CommandRunner.findLastIndex (output st)
            CommandRunner.isProgressEntry =? -1)
  | _ => true
  end.

End Revisions.

(** ** Sample inputs *)

Module Sample.

Definition w0 : world :=
  mkWorld 1700000000000
    (fun _ => Resolved (ApiResponse.mk false None None None)).

(** The service accepts the deployment as command [cmd-7]. *)
Definition w_accept : world :=
  mkWorld 1700000000001
    (fun _ =>
       Resolved (ApiResponse.mk true (Some (Js.lit "cmd-7")) None None)).

(** The service cannot be reached. *)
Definition w_down : world :=
  mkWorld 1700000000002
    (fun _ => Rejected (ErrorObject (Js.lit "Failed to fetch"))).

(** A progress line followed by a permanent one. *)
Definition log0 : list OutputMessage.t :=
  [ OutputMessage.mk 1 (Js.lit "10%") (Js.lit "stdout") (Some true) (Some true);
    OutputMessage.mk 2 (Js.lit "cloning") (Js.lit "system") None None ].

Definition st0 : CommandRunner.state :=
  mkAppState (Js.lit "https://h/r.git") (Js.lit "main") log0
    (Some (Js.lit "cmd-1")) [] true true.

(** No command is active, the URL field holds blanks only. *)
Definition blankUrl : CommandRunner.state :=
  mkAppState (Js.lit "   ") (Js.lit "main") log0 None [] false true.

Definition progress10 : SocketMessage.t :=
  SocketMessage.mk (Js.lit "cmd-1") (Some (Js.lit "10%")) None
    None (Some true) (Some true).

Definition done : SocketMessage.t :=
  SocketMessage.mk (Js.lit "cmd-1") (Some (Js.lit "done")) None
    None (Some false) None.

(** A payload whose text is the empty string. *)
Definition blank : SocketMessage.t :=
  SocketMessage.mk (Js.lit "cmd-1") (Some []) (Some (Js.lit "stdout"))
    None None None.

(** A payload of another command than the active one of [st0]. *)
Definition stray : SocketMessage.t :=
  SocketMessage.mk (Js.lit "cmd-2") (Some (Js.lit "hello")) None
    (Some (Js.VNumber 1)) None None.

(** A terminal event: the process exited with code 0, or with code 2. *)
Definition exited0 : SocketMessage.t :=
  SocketMessage.mk (Js.lit "cmd-1") None None (Some (Js.VNumber 0)) None None.

Definition exited2 : SocketMessage.t :=
  SocketMessage.mk (Js.lit "cmd-1") None None (Some (Js.VNumber 2)) None None.

(** A [commandFinished] payload whose exit code is a string. *)
Definition exitedText : SocketMessage.t :=
  SocketMessage.mk (Js.lit "cmd-1") None None
    (Some (Js.VString (Js.lit "0"))) None None.

(** The state of a freshly mounted component with a URL typed in. *)
Definition idle : CommandRunner.state :=
  mkAppState (Js.lit "https://h/r.git") (Js.lit "main") [] None [] false true.

Definition progress55 : SocketMessage.t :=
  SocketMessage.mk (Js.lit "cmd-1") (Some (Js.lit "55%")) (Some (Js.lit "stdout"))
    None (Some true) (Some true).

(** No command is active, nothing is loading, the log holds two lines:
    the button starts a deployment. *)
Definition ready : CommandRunner.state :=
  mkAppState (Js.lit " https://h/r.git ") (Js.lit "main") log0 None [] false
    true.

(** A payload of kind [stderr]. *)
Definition warning : SocketMessage.t :=
  SocketMessage.mk (Js.lit "cmd-1") (Some (Js.lit "warn: x"))
    (Some (Js.lit "stderr")) None None None.

(** The service answers the repo-list request with two names. *)
Definition w_repos : world :=
  mkWorld 1700000000003
    (fun _ =>
       Resolved (ApiResponse.mk true None None
                   (Some [Js.lit "alpha"; Js.lit "beta"]))).

(** The service refuses, with a reason. *)
Definition w_refuse : world :=
  mkWorld 1700000000004
    (fun _ =>
       Resolved (ApiResponse.mk false None (Some (Js.lit "no such repo"))
                   None)).

(** A terminal event overtakes the answer to the deploy request: the URL
    is typed, the button clicked, the event delivered, and only then the
    request in flight at position 1 is accepted. *)
Definition overtaken : list (world * EventLoop.arrival) :=
  [ (w0, EventLoop.Delivered
           (CommandRunner.OnGitUrlChange (Js.lit "https://h/r.git")));
    (w0, EventLoop.Delivered CommandRunner.OnButtonClick);
    (w0, EventLoop.Delivered (CommandRunner.OnCommandFinished exited0));
    (w0, EventLoop.Answered 1
           (Resolved (ApiResponse.mk true (Some (Js.lit "cmd-7")) None
                        None))) ].

(** Two deployments in flight at once: the URL is typed and the button
    clicked, a terminal event arrives before the answer and enables the
    button again, a second click starts a second deployment, and the
    first request is accepted. Requests in flight are then the first
    repo-list fetch, the one of the terminal event and, at position 2,
    the second deployment. *)
Definition racingDeploys : list (world * EventLoop.arrival) :=
  [ (w0, EventLoop.Delivered
           (CommandRunner.OnGitUrlChange (Js.lit "https://h/r.git")));
    (w0, EventLoop.Delivered CommandRunner.OnButtonClick);
    (w0, EventLoop.Delivered (CommandRunner.OnCommandFinished exited0));
    (w0, EventLoop.Delivered CommandRunner.OnButtonClick);
    (w0, EventLoop.Answered 1
           (Resolved (ApiResponse.mk true (Some (Js.lit "cmd-7")) None
                        None))) ].

(** The component in state [ready], nothing in flight. *)
Definition quiet : EventLoop.machine := EventLoop.mkMachine ready [].

(** A progress update as it travels, its kind in [outputType] only. *)
Definition wire55 : Wire.t :=
  Wire.mk (Js.lit "cmd-1") (Some (Js.lit "55%")) None
    (Some (Js.lit "stderr")) None (Some true) (Some true).

End Sample.

(** * Properties *)

Import CommandRunner.

Arguments Js.lit : simpl never.
Arguments Js.number_to_string : simpl never.

(** ** Strings *)

Lemma trimStart_white (s : Js.str) :
  forallb Js.is_white_space s = true -> Js.trimStart s = [].
Proof.
  induction s as [|c s IH]; simpl; [reflexivity|].
  intros H. apply andb_prop in H as [Hc Hs]. rewrite Hc. exact (IH Hs).
Qed.

Lemma trim_white (s : Js.str) :
  forallb Js.is_white_space s = true -> Js.trim s = [].
Proof.
  intros H. unfold Js.trim, Js.trimEnd. rewrite (trimStart_white s H).
  reflexivity.
Qed.

Example trim_pads :
  Js.trim (Js.lit "  https://h/r.git ") = Js.lit "https://h/r.git".
Proof. reflexivity. Qed.

(** Tab, no-break space and the byte order mark are blanks; the
    zero-width space is not. *)
Example is_white_space_samples :
  Js.is_white_space <$> [9; 160; 65279; 8203; 47]%N
  = [true; true; true; false; false].
Proof. reflexivity. Qed.

Example number_to_string_neg : Js.number_to_string (-15) = Js.lit "-15".
Proof. reflexivity. Qed.

(** ** [findLastIndex] *)

Section FindLastIndex.

Context {T : Type} (array : list T) (predicate : T -> bool).

Import CommandRunner.

Lemma findLastIndex_from_range (n : nat) :
  -1 <= findLastIndex_from array predicate n < Z.of_nat n.
Proof.
  induction n as [|i IH]; simpl; [lia|].
  destruct (array !! i) as [v|]; [destruct (predicate v)|]; lia.
Qed.

(** Nothing below [n] satisfies the predicate: the scan falls off the
    front. *)
Lemma findLastIndex_from_none (n : nat) :
  (forall i v, (i < n)%nat -> array !! i = Some v -> predicate v = false) ->
  findLastIndex_from array predicate n = -1.
Proof.
  induction n as [|i IH]; intros Hno; simpl; [reflexivity|].
  destruct (array !! i) as [v|] eqn:Hv.
  - rewrite (Hno i v) by (lia || assumption). apply IH.
    intros j u Hj. apply Hno. lia.
  - apply IH. intros j u Hj. apply Hno. lia.
Qed.

(** [k] satisfies the predicate and nothing between [k] and [n] does: the
    scan stops at [k]. *)
Lemma findLastIndex_from_last (n k : nat) (v : T) :
  (k < n)%nat ->
  array !! k = Some v ->
  predicate v = true ->
  (forall j u, (k < j < n)%nat -> array !! j = Some u -> predicate u = false) ->
  findLastIndex_from array predicate n = Z.of_nat k.
Proof.
  induction n as [|i IH]; intros Hk Hv Hp Hlast; [lia|]. simpl.
  destruct (Nat.eq_dec i k) as [->|Hne].
  - rewrite Hv, Hp. reflexivity.
  - destruct (array !! i) as [u|] eqn:Hu.
    + rewrite (Hlast i u) by (lia || assumption).
      apply IH; try assumption; [lia|]. intros j x Hj. apply Hlast. lia.
    + apply IH; try assumption; [lia|]. intros j x Hj. apply Hlast. lia.
Qed.

Lemma findLastIndex_none :
  (forall v, v ∈ array -> predicate v = false) ->
  findLastIndex array predicate = -1.
Proof.
  intros Hno. apply findLastIndex_from_none. intros i v _ Hv.
  apply Hno. apply list_elem_of_lookup. exists i. exact Hv.
Qed.

Lemma findLastIndex_last (k : nat) (v : T) :
  array !! k = Some v ->
  predicate v = true ->
  (forall j u, (k < j)%nat -> array !! j = Some u -> predicate u = false) ->
  findLastIndex array predicate = Z.of_nat k.
Proof.
  intros Hv Hp Hlast. apply (findLastIndex_from_last _ k v); try assumption.
  - apply lookup_lt_Some in Hv. exact Hv.
  - intros j u Hj. apply Hlast. lia.
Qed.

(** A hit of the scan is an index whose entry satisfies the predicate. *)
Lemma findLastIndex_from_hit (n : nat) :
  findLastIndex_from array predicate n <> -1 ->
  exists v, array !! Z.to_nat (findLastIndex_from array predicate n) = Some v
            /\ predicate v = true.
Proof.
  induction n as [|i IH]; simpl; [congruence|].
  destruct (array !! i) as [v|] eqn:Hv; [|exact IH].
  destruct (predicate v) eqn:Hp; [|exact IH].
  intros _. exists v. rewrite Nat2Z.id. split; assumption.
Qed.

End FindLastIndex.

Example findLastIndex_picks_nearest_to_tail :
  CommandRunner.findLastIndex [true; false; true; false] (fun b => b) = 2.
Proof. reflexivity. Qed.

Example findLastIndex_not_found :
  CommandRunner.findLastIndex [false; false] (fun b => b) = -1.
Proof. reflexivity. Qed.

(** ** The handler monad *)

Section Run.

Context {M : Type}.

Lemma run_bind {A B : Type} (w : world) (p : prog M A) (f : A -> prog M B)
    (st : AppState M) :
  run w (bind p f) st =
    let '(a, st1, tr1) := run w p st in
    let '(b, st2, tr2) := run w (f a) st1 in
    (b, st2, tr1 ++ tr2).
Proof.
  revert st. induction p as [a|X e k IH|req k IH]; intros st.
  - cbn. destruct (run w (f a) st) as [[b st2] tr2]. reflexivity.
  - cbn. destruct (perform w e st) as [[x st1] tr1].
    rewrite (IH x st1).
    destruct (run w (k x) st1) as [[a st2] tr2].
    destruct (run w (f a) st2) as [[b st3] tr3].
    rewrite app_assoc. reflexivity.
  - cbn. rewrite (IH (network w req) st).
    destruct (run w (k (network w req)) st) as [[a st2] tr2].
    destruct (run w (f a) st2) as [[b st3] tr3]. reflexivity.
Qed.

(** Running to completion is running to the first [await] and then on
    from the answer the environment gives. *)
Lemma run_until_await {A : Type} (w : world) (p : prog M A)
    (st : AppState M) :
  run w p st =
    match until_await w p st with
    | (Finished a, st1, tr1) => (a, st1, tr1)
    | (Awaiting req k, st1, tr1) =>
        let '(a, st2, tr2) := run w (k (network w req)) st1 in
        (a, st2, tr1 ++ tr2)
    end.
Proof.
  revert st. induction p as [a|X e k IH|req k _]; intros st.
  - reflexivity.
  - cbn. destruct (perform w e st) as [[x st1] tr1]. rewrite (IH x st1).
    destruct (until_await w (k x) st1) as [[[a|req k'] st2] tr2].
    + reflexivity.
    + destruct (run w (k' (network w req)) st2) as [[a st3] tr3].
      rewrite app_assoc. reflexivity.
  - cbn. destruct (run w (k (network w req)) st) as [[a st2] tr2].
    reflexivity.
Qed.

(** The repo-list refresh touches [deployedRepos] only. *)
Lemma fetchDeployedRepos_frame (w : world) (st : AppState M) :
  let st' := final (run w (@fetchDeployedRepos M) st) in
  gitUrl st' = gitUrl st /\ branch st' = branch st /\ output st' = output st
  /\ activeCommandId st' = activeCommandId st
  /\ isLoading st' = isLoading st /\ isConnected st' = isConnected st.
Proof.
  unfold fetchDeployedRepos. cbn.
  destruct (network w GetRepos) as [data|err]; cbn.
  - destruct (ApiResponse.repos data); cbn; repeat split; reflexivity.
  - repeat split; reflexivity.
Qed.

Lemma fetchDeployedRepos_calls (w : world) (st : AppState M) :
  net_calls (trace (run w (@fetchDeployedRepos M) st)) = [NetCall GetRepos].
Proof.
  unfold fetchDeployedRepos. cbn.
  destruct (network w GetRepos) as [data|err]; cbn.
  - destruct (ApiResponse.repos data); reflexivity.
  - reflexivity.
Qed.

End Run.

(** ** The [commandOutput] listener *)

Lemma truthy_nonempty (t : Js.str) : t <> [] -> Js.truthy t = true.
Proof. destruct t; [congruence | reflexivity]. Qed.

Lemma commandOutput_discards (w : world) (data : SocketMessage.t) (st : state) :
  Js.truthy_opt (SocketMessage.output data) = false ->
  run w (commandOutput data) st = (tt, st, []).
Proof. intros H. unfold commandOutput. rewrite H. reflexivity. Qed.

Lemma commandOutput_updates (w : world) (data : SocketMessage.t) (st : state) :
  Js.truthy_opt (SocketMessage.output data) = true ->
  run w (commandOutput data) st =
    (tt,
     mkAppState (gitUrl st) (branch st)
       (commandOutput_update (clock w) data (output st))
       (activeCommandId st) (deployedRepos st) (isLoading st)
       (isConnected st),
     []).
Proof. intros H. unfold commandOutput. rewrite H. reflexivity. Qed.

Lemma commandOutput_update_appends (now : Z) (data : SocketMessage.t)
    (prev : list OutputMessage.t) :
  replacesProgress data = false ->
  commandOutput_update now data prev = prev ++ [outputMessage now data].
Proof. intros H. unfold commandOutput_update. rewrite H. reflexivity. Qed.

Lemma commandOutput_update_replaces (now : Z) (data : SocketMessage.t)
    (prev : list OutputMessage.t) (k : nat) (e : OutputMessage.t) :
  replacesProgress data = true ->
  prev !! k = Some e ->
  isProgressEntry e = true ->
  (forall j u, (k < j)%nat -> prev !! j = Some u -> isProgressEntry u = false) ->
  commandOutput_update now data prev = <[k := outputMessage now data]> prev.
Proof.
  intros Hflags He Hp Hlast. unfold commandOutput_update. rewrite Hflags.
  rewrite (findLastIndex_last prev isProgressEntry k e He Hp Hlast).
  replace (Z.of_nat k =? -1) with false by (symmetry; apply Z.eqb_neq; lia).
  rewrite Nat2Z.id. reflexivity.
Qed.

Lemma commandOutput_update_no_progress (now : Z) (data : SocketMessage.t)
    (prev : list OutputMessage.t) :
  (forall u, u ∈ prev -> isProgressEntry u = false) ->
  commandOutput_update now data prev = prev ++ [outputMessage now data].
Proof.
  intros Hno. unfold commandOutput_update.
  rewrite (findLastIndex_none prev isProgressEntry Hno).
  destruct (replacesProgress data); reflexivity.
Qed.

(** C1. A [commandOutput] event with non-empty text, [isProgress = true]
    and [replaceLast = true]: when [k] is the index of the last entry of
    the log with [isProgress = true], the log keeps its length, position
    [k] takes the event's text and kind, and every other position is
    unchanged; when no entry has [isProgress = true], the event's entry
    is appended at the end. *)
Theorem progress_event_replaces_last_progress_or_appends :
  forall (w : world) (st : state) (data : SocketMessage.t) (t : Js.str),
    SocketMessage.output data = Some t ->
    t <> [] ->
    SocketMessage.isProgress data = Some true ->
    SocketMessage.replaceLast data = Some true ->
    let log := output st in
    let log' := output (step w (OnCommandOutput data) st) in
    let kind :=
      Js.or_else (SocketMessage.outputType data) (Js.lit "stdout") in
    (forall (k : nat) (e : OutputMessage.t),
        log !! k = Some e ->
        isProgressEntry e = true ->
        (forall j u, (k < j)%nat -> log !! j = Some u ->
                     isProgressEntry u = false) ->
        length log' = length log
        /\ (exists m, log' !! k = Some m
                      /\ OutputMessage.text m = t
                      /\ OutputMessage.type m = kind)
        /\ (forall j, j <> k -> log' !! j = log !! j))
    /\ ((forall u, u ∈ log -> isProgressEntry u = false) ->
        exists m, log' = log ++ [m]
                  /\ OutputMessage.text m = t
                  /\ OutputMessage.type m = kind).
Proof.
  intros w st data t Ht Hne Hip Hrl log log' kind.
  assert (Htruthy : Js.truthy_opt (SocketMessage.output data) = true)
    by (rewrite Ht; apply truthy_nonempty, Hne).
  assert (Hlog' : log' = commandOutput_update (clock w) data log).
  { unfold log', step. cbn [handle].
    rewrite (commandOutput_updates w data st Htruthy). reflexivity. }
  assert (Htext : OutputMessage.text (outputMessage (clock w) data) = t).
  { unfold outputMessage. cbn. rewrite Ht. cbn.
    rewrite (truthy_nonempty t Hne). reflexivity. }
  split.
  - intros k e He Hp Hlast.
    rewrite Hlog', (commandOutput_update_replaces _ data log k e);
      [| unfold replacesProgress; rewrite Hip, Hrl; reflexivity
       | assumption..].
    split; [apply length_insert|]. split.
    + exists (outputMessage (clock w) data). split; [|split].
      * apply list_lookup_insert_eq. apply lookup_lt_Some in He. exact He.
      * exact Htext.
      * reflexivity.
    + intros j Hj. apply list_lookup_insert_ne. congruence.
  - intros Hno. exists (outputMessage (clock w) data).
    rewrite Hlog', (commandOutput_update_no_progress _ data log Hno).
    repeat split. exact Htext.
Qed.

Lemma progress_event_replaces_last_progress_or_appends_witness :
  length (output (step Sample.w0 (OnCommandOutput Sample.progress55) Sample.st0))
  = length (output Sample.st0).
Proof.
  assert (Hne : Js.lit "55%" <> []) by (vm_compute; congruence).
  destruct (progress_event_replaces_last_progress_or_appends
              Sample.w0 Sample.st0 Sample.progress55 (Js.lit "55%")
              eq_refl Hne eq_refl eq_refl) as [Hreplace _].
  destruct (Hreplace 0%nat
              (OutputMessage.mk 1 (Js.lit "10%") (Js.lit "stdout")
                 (Some true) (Some true)) eq_refl eq_refl) as [Hlen _].
  - intros [|[|j]] u Hj Hu; [lia | | ].
    + vm_compute in Hu. injection Hu as <-. reflexivity.
    + vm_compute in Hu. discriminate.
  - exact Hlen.
Defined.

(** The scenario of the specification: two progress lines and a permanent
    one leave a two-entry log. *)
Example progress_scenario :
  OutputMessage.text <$>
    output (steps (outputEvents [(Sample.w0, Sample.progress10);
                                 (Sample.w0, Sample.progress55);
                                 (Sample.w0, Sample.done)]) Sample.idle)
  = [Js.lit "55%"; Js.lit "done"].
Proof. reflexivity. Qed.

Lemma steps_outputEvents_cons (w : world) (data : SocketMessage.t)
    (evs : list (world * SocketMessage.t)) (st : state) :
  steps (outputEvents ((w, data) :: evs)) st
  = steps (outputEvents evs) (step w (OnCommandOutput data) st).
Proof. reflexivity. Qed.

Lemma step_commandOutput_output (w : world) (data : SocketMessage.t)
    (st : state) :
  output (step w (OnCommandOutput data) st)
  = if Js.truthy_opt (SocketMessage.output data)
    then commandOutput_update (clock w) data (output st)
    else output st.
Proof.
  unfold step. cbn [handle].
  destruct (Js.truthy_opt (SocketMessage.output data)) eqn:H.
  - rewrite (commandOutput_updates w data st H). reflexivity.
  - rewrite (commandOutput_discards w data st H). reflexivity.
Qed.

(** C2, as stated, fails on an event whose text is empty: the listener
    drops it and the log does not grow. *)
Lemma append_per_event_fails_on_empty_text :
  ~ (forall (evs : list (world * SocketMessage.t)) (st : state),
        Forall (fun we => replacesProgress (snd we) = false) evs ->
        length (output (steps (outputEvents evs) st))
        = (length (output st) + length evs)%nat).
Proof.
  intros H.
  specialize (H [(Sample.w0, Sample.blank)] Sample.idle).
  assert (Hflags : Forall (fun we : world * SocketMessage.t =>
                             replacesProgress (snd we) = false)
                     [(Sample.w0, Sample.blank)])
    by (repeat constructor).
  specialize (H Hflags). vm_compute in H. discriminate H.
Qed.

(** C2, amended. For every sequence of [commandOutput] events with
    non-empty text in which no event has both [isProgress = true] and
    [replaceLast = true], folding the events into any log appends one
    entry per event at the end, in arrival order; the same holds of the
    revision in [src/App.tsx] for every sequence of events with non-empty
    text. *)
Theorem nonempty_plain_events_append_in_order :
  (forall (evs : list (world * SocketMessage.t)) (st : state),
      Forall (fun we => Js.truthy_opt (SocketMessage.output (snd we)) = true
                        /\ replacesProgress (snd we) = false) evs ->
      output (steps (outputEvents evs) st)
      = output st
        ++ ((fun we => outputMessage (clock (fst we)) (snd we)) <$> evs))
  /\ (forall (evs : list (world * AppTsx.SocketMessage.t))
             (st : AppTsx.state),
      Forall (fun we =>
                Js.truthy_opt (AppTsx.SocketMessage.output (snd we)) = true)
        evs ->
      output (AppTsx.commandOutputs evs st)
      = output st
        ++ ((fun we =>
               AppTsx.outputMessage (clock (fst we))
                 (Js.or_else (AppTsx.SocketMessage.output (snd we)) [])
                 (snd we)) <$> evs)).
Proof.
  split.
  - induction evs as [|[w data] evs IH]; intros st Hall.
    + cbn. rewrite app_nil_r. reflexivity.
    + destruct (Forall_inv Hall) as [Htext Hflags].
      apply Forall_inv_tail in Hall. cbn in Htext, Hflags.
      rewrite steps_outputEvents_cons, (IH _ Hall).
      rewrite step_commandOutput_output, Htext.
      rewrite (commandOutput_update_appends _ _ _ Hflags).
      rewrite <- app_assoc. reflexivity.
  - induction evs as [|[w data] evs IH]; intros st Hall.
    + cbn. rewrite app_nil_r. reflexivity.
    + pose proof (Forall_inv Hall) as Htext.
      apply Forall_inv_tail in Hall. cbn in Htext.
      cbn [AppTsx.commandOutputs]. rewrite (IH _ Hall). clear IH.
      unfold AppTsx.commandOutput.
      destruct (AppTsx.SocketMessage.output data) as [text|] eqn:Ho;
        [|discriminate Htext].
      cbn in Htext. rewrite Htext. cbn. rewrite Ho. cbn. rewrite Htext.
      rewrite <- app_assoc. reflexivity.
Qed.

Lemma nonempty_plain_events_append_in_order_witness :
  output (steps (outputEvents [(Sample.w0, Sample.done);
                               (Sample.w0, Sample.done)]) Sample.st0)
  = output Sample.st0
    ++ [outputMessage (clock Sample.w0) Sample.done;
        outputMessage (clock Sample.w0) Sample.done].
Proof.
  apply (proj1 nonempty_plain_events_append_in_order
           [(Sample.w0, Sample.done); (Sample.w0, Sample.done)] Sample.st0).
  repeat constructor.
Defined.

(** C7. A [commandOutput] event whose text is empty or absent is a no-op
    whatever its [isProgress] and [replaceLast] flags, in both
    revisions: the state is returned as it was and nothing is emitted. *)
Theorem empty_text_event_is_discarded :
  (forall (w : world) (data : SocketMessage.t) (st : state),
      SocketMessage.output data = None \/ SocketMessage.output data = Some [] ->
      run w (commandOutput data) st = (tt, st, [])
      /\ step w (OnCommandOutput data) st = st)
  /\ (forall (w : world) (data : AppTsx.SocketMessage.t) (st : AppTsx.state),
      AppTsx.SocketMessage.output data = None
      \/ AppTsx.SocketMessage.output data = Some [] ->
      run w (AppTsx.commandOutput data) st = (tt, st, [])).
Proof.
  split.
  - intros w data st Hempty.
    assert (H : Js.truthy_opt (SocketMessage.output data) = false)
      by (destruct Hempty as [-> | ->]; reflexivity).
    unfold step. cbn [handle].
    rewrite (commandOutput_discards w data st H). split; reflexivity.
  - intros w data st Hempty. unfold AppTsx.commandOutput.
    destruct Hempty as [-> | ->]; reflexivity.
Qed.

Lemma empty_text_event_is_discarded_witness :
  run Sample.w0 (commandOutput Sample.blank) Sample.st0
  = (tt, Sample.st0, []).
Proof.
  apply (proj1 empty_text_event_is_discarded Sample.w0 Sample.blank Sample.st0).
  right. reflexivity.
Defined.

(** ** The [commandFinished] listener *)

Lemma commandFinished_effect (w : world) (data : SocketMessage.t)
    (st : state) (exitCode : Z) :
  SocketMessage.exitCode data = Some (Js.VNumber exitCode) ->
  let r := run w (commandFinished data) st in
  output (final r) = output st ++ [finishedMessage (clock w) exitCode]
  /\ activeCommandId (final r) = None
  /\ isLoading (final r) = false
  /\ net_calls (trace r) = [NetCall GetRepos].
Proof.
  intros H. unfold commandFinished. rewrite H. cbn.
  destruct (network w GetRepos) as [resp|err]; cbn.
  - destruct (ApiResponse.repos resp); cbn; repeat split; reflexivity.
  - repeat split; reflexivity.
Qed.

Lemma commandFinished_ignores (w : world) (data : SocketMessage.t)
    (st : state) :
  (forall n, SocketMessage.exitCode data <> Some (Js.VNumber n)) ->
  run w (commandFinished data) st = (tt, st, []).
Proof.
  intros H. unfold commandFinished.
  destruct (SocketMessage.exitCode data) as [[n| | |]|]; try reflexivity.
  exfalso. exact (H n eq_refl).
Qed.

(** C3. A [commandFinished] event carrying a numeric exit code appends
    exactly one entry to the log, of kind [success] when the code is 0 and
    of kind [error] for any other code, and leaves no active command. *)
Theorem terminal_event_appends_summary_and_clears_active :
  forall (w : world) (st : state) (data : SocketMessage.t) (exitCode : Z),
    SocketMessage.exitCode data = Some (Js.VNumber exitCode) ->
    let st' := step w (OnCommandFinished data) st in
    (exists m, output st' = output st ++ [m]
               /\ (exitCode = 0 -> OutputMessage.type m = Js.lit "success")
               /\ (exitCode <> 0 -> OutputMessage.type m = Js.lit "error"))
    /\ activeCommandId st' = None.
Proof.
  intros w st data exitCode H st'.
  destruct (commandFinished_effect w data st exitCode H)
    as (Hout & Hactive & _).
  split; [|exact Hactive].
  exists (finishedMessage (clock w) exitCode). split; [exact Hout|].
  unfold finishedMessage. cbn [OutputMessage.type]. split.
  - intros ->. reflexivity.
  - intros Hnz. apply Z.eqb_neq in Hnz. rewrite Hnz. reflexivity.
Qed.

Lemma terminal_event_appends_summary_and_clears_active_witness :
  (exists m, output (step Sample.w0 (OnCommandFinished Sample.exited2)
                       Sample.st0)
             = output Sample.st0 ++ [m]
             /\ OutputMessage.type m = Js.lit "error")
  /\ activeCommandId (step Sample.w0 (OnCommandFinished Sample.exited2)
                        Sample.st0) = None.
Proof.
  destruct (terminal_event_appends_summary_and_clears_active
              Sample.w0 Sample.st0 Sample.exited2 2 eq_refl)
    as [(m & Hout & _ & Herr) Hactive].
  split; [|exact Hactive].
  exists m. split; [exact Hout|]. apply Herr. lia.
Defined.

Example exit_code_zero_is_success :
  OutputMessage.type <$>
    output (step Sample.w0 (OnCommandFinished Sample.exited0) Sample.idle)
  = [Js.lit "success"].
Proof. reflexivity. Qed.

(** C10. A [commandFinished] event whose [exitCode] is absent or not a
    number is a complete no-op in both revisions: the state (log, active
    command, loading flag and the rest) is unchanged and nothing is
    emitted, so no repo-list request is made. *)
Theorem non_numeric_exit_code_is_ignored :
  (forall (w : world) (data : SocketMessage.t) (st : state),
      (forall n, SocketMessage.exitCode data <> Some (Js.VNumber n)) ->
      run w (commandFinished data) st = (tt, st, [])
      /\ step w (OnCommandFinished data) st = st)
  /\ (forall (w : world) (data : AppTsx.SocketMessage.t) (st : AppTsx.state),
      (forall n, AppTsx.SocketMessage.exitCode data <> Some (Js.VNumber n)) ->
      run w (AppTsx.commandFinished data) st = (tt, st, [])).
Proof.
  split.
  - intros w data st H. unfold step. cbn [handle].
    rewrite (commandFinished_ignores w data st H). split; reflexivity.
  - intros w data st H. unfold AppTsx.commandFinished.
    destruct (AppTsx.SocketMessage.exitCode data) as [[n| | |]|];
      try reflexivity.
    exfalso. exact (H n eq_refl).
Qed.

Lemma non_numeric_exit_code_is_ignored_witness :
  run Sample.w0 (commandFinished Sample.exitedText) Sample.st0
  = (tt, Sample.st0, []).
Proof.
  apply (proj1 non_numeric_exit_code_is_ignored
           Sample.w0 Sample.exitedText Sample.st0).
  intros n. discriminate.
Defined.

(** ** Terminal entries *)

(** An entry that is not a progress entry keeps its place through the
    updater of the [commandOutput] listener. *)
Lemma commandOutput_update_keeps (now : Z) (data : SocketMessage.t)
    (prev : list OutputMessage.t) (i : nat) (m : OutputMessage.t) :
  prev !! i = Some m ->
  isProgressEntry m = false ->
  commandOutput_update now data prev !! i = Some m.
Proof.
  intros Hm Hplain. unfold commandOutput_update.
  destruct (replacesProgress data); [|exact (lookup_app_l_Some _ _ _ _ Hm)].
  destruct (findLastIndex prev isProgressEntry =? -1) eqn:Hfound; cbn [negb].
  - exact (lookup_app_l_Some _ _ _ _ Hm).
  - apply Z.eqb_neq in Hfound.
    destruct (findLastIndex_from_hit prev isProgressEntry _ Hfound)
      as (v & Hv & Hp).
    rewrite list_lookup_insert_ne; [exact Hm|].
    intros Heq. unfold findLastIndex in Heq. rewrite Heq in Hv.
    rewrite Hm in Hv. injection Hv as <-. congruence.
Qed.

Lemma finishedMessage_not_progress (now exitCode : Z) :
  isProgressEntry (finishedMessage now exitCode) = false.
Proof. reflexivity. Qed.

(** C8. Terminal entries are never progress entries, and every terminal
    entry of the log keeps its position, text and kind through every
    sequence of later [commandOutput] events, whatever their flags. *)
Theorem terminal_entries_are_never_replaced :
  forall (evs : list (world * SocketMessage.t)) (st : state) (i : nat)
         (m : OutputMessage.t),
    isTerminalEntry m ->
    output st !! i = Some m ->
    isProgressEntry m = false
    /\ output (steps (outputEvents evs) st) !! i = Some m.
Proof.
  intros evs st i m (now & exitCode & ->). split.
  - apply finishedMessage_not_progress.
  - revert st H. induction evs as [|[w data] evs IH]; intros st Hm.
    + exact Hm.
    + rewrite steps_outputEvents_cons. apply IH.
      rewrite step_commandOutput_output.
      destruct (Js.truthy_opt (SocketMessage.output data)); [|exact Hm].
      apply commandOutput_update_keeps; [exact Hm|].
      apply finishedMessage_not_progress.
Qed.

Lemma terminal_entries_are_never_replaced_witness :
  output
    (steps (outputEvents [(Sample.w0, Sample.progress10);
                          (Sample.w0, Sample.progress55);
                          (Sample.w0, Sample.done)])
       (step Sample.w0 (OnCommandFinished Sample.exited2) Sample.st0))
    !! 2%nat
  = Some (finishedMessage (clock Sample.w0) 2).
Proof.
  apply (terminal_entries_are_never_replaced
           [(Sample.w0, Sample.progress10); (Sample.w0, Sample.progress55);
            (Sample.w0, Sample.done)]
           (step Sample.w0 (OnCommandFinished Sample.exited2) Sample.st0)
           2%nat (finishedMessage (clock Sample.w0) 2)).
  - exists (clock Sample.w0), 2. reflexivity.
  - reflexivity.
Defined.

(** ** Starting a deployment *)

Lemma trimStart_head (s r : Js.str) (c : N) :
  Js.trimStart s = c :: r -> Js.is_white_space c = false.
Proof.
  induction s as [|d s IH]; simpl; [discriminate|].
  destruct (Js.is_white_space d) eqn:Hd; [exact IH|].
  intros Heq. injection Heq as <- _. exact Hd.
Qed.

Lemma trimStart_empty (s : Js.str) :
  Js.trimStart s = [] -> forallb Js.is_white_space s = true.
Proof.
  induction s as [|c s IH]; simpl; [reflexivity|].
  destruct (Js.is_white_space c); [exact IH | discriminate].
Qed.

(** [trim] leaves nothing exactly of the strings made of blanks. *)
Lemma trim_empty_iff (s : Js.str) :
  Js.trim s = [] <-> forallb Js.is_white_space s = true.
Proof.
  split; [|apply trim_white].
  unfold Js.trim, Js.trimEnd. intros H.
  apply (f_equal reverse) in H. rewrite reverse_involutive in H. cbn in H.
  apply trimStart_empty in H.
  destruct (Js.trimStart s) as [|c r] eqn:Hs; [exact (trimStart_empty s Hs)|].
  apply trimStart_head in Hs.
  assert (Hc : Js.is_white_space c = true).
  { apply (proj1 (forallb_forall _ _) H). rewrite reverse_cons.
    apply in_or_app. right. left. reflexivity. }
  congruence.
Qed.

(** The button reaches [deployRepo] only when no command is active. *)
Lemma onClick_dispatch (st : state) :
  onClick st =
    if Js.truthy_opt (activeCommandId st) then stopProcess st
    else if isLoading st then mret tt
    else deployRepo st.
Proof.
  unfold onClick.
  destruct (Js.truthy_opt (activeCommandId st)), (isLoading st); reflexivity.
Qed.

(** [deployRepo] up to the request: the log is empty, the loading flag is
    set, the request is out and the rest waits for the answer. *)
Lemma deployRepo_until_await (w : world) (snap st : state) :
  Js.trim (gitUrl snap) <> [] ->
  until_await w (deployRepo snap) st =
    (Awaiting (PostDeploy (Js.trim (gitUrl snap)) (Js.trim (branch snap)))
       deployRepo_settle,
     mkAppState (gitUrl st) (branch st) [] (activeCommandId st)
       (deployedRepos st) true (isConnected st),
     [NetCall (PostDeploy (Js.trim (gitUrl snap)) (Js.trim (branch snap)))]).
Proof.
  intros Hurl. unfold deployRepo. rewrite (truthy_nonempty _ Hurl).
  reflexivity.
Qed.

(** On an accepted answer the rest of [deployRepo] records the command
    and leaves the log alone. *)
Lemma deployRepo_settle_accepted (w : world) (data : ApiResponse.t)
    (st : state) :
  deployAccepted (Resolved data) = true ->
  run w (deployRepo_settle (Resolved data)) st =
    (tt, withActiveCommandId (ApiResponse.commandId data) st, []).
Proof.
  cbn [deployAccepted deployRepo_settle]. intros ->. reflexivity.
Qed.

(** On any other answer it appends one [error] entry, resets the loading
    flag and leaves the active command alone. *)
Lemma deployRepo_settle_failed (w : world) (r : fetch_outcome) (st : state) :
  deployAccepted r = false ->
  exists what,
    run w (deployRepo_settle r) st =
      (tt,
       mkAppState (gitUrl st) (branch st)
         (output st ++ [errorMessage (clock w) what])
         (activeCommandId st) (deployedRepos st) false (isConnected st),
       []).
Proof.
  destruct r as [data|err]; cbn [deployAccepted deployRepo_settle].
  - intros ->.
    exists (Js.or_else (ApiResponse.error data) (Js.lit "Unknown error")).
    reflexivity.
  - intros _. exists (error_message err). reflexivity.
Qed.

Lemma deployRepo_run (w : world) (snap st : state) :
  Js.trim (gitUrl snap) <> [] ->
  let req := PostDeploy (Js.trim (gitUrl snap)) (Js.trim (branch snap)) in
  let st1 := mkAppState (gitUrl st) (branch st) [] (activeCommandId st)
               (deployedRepos st) true (isConnected st) in
  run w (deployRepo snap) st =
    (tt, final (run w (deployRepo_settle (network w req)) st1),
     NetCall req :: trace (run w (deployRepo_settle (network w req)) st1)).
Proof.
  intros Hurl req st1.
  rewrite run_until_await, (deployRepo_until_await w snap st Hurl).
  fold req st1.
  destruct (run w (deployRepo_settle (network w req)) st1) as [[[] st2] tr2].
  reflexivity.
Qed.

(** The continuation of [deployRepo] awaits nothing more. *)
Lemma deployRepo_settle_until_await (w : world) (r : fetch_outcome)
    (st : state) :
  until_await w (deployRepo_settle r) st
  = (Finished tt, final (run w (deployRepo_settle r) st),
     trace (run w (deployRepo_settle r) st)).
Proof.
  destruct r as [data|err]; cbn [deployRepo_settle]; [|reflexivity].
  destruct (ApiResponse.success data
            && Js.truthy_opt (ApiResponse.commandId data)); reflexivity.
Qed.

(** C4, as stated, fails when two deployments are in flight: the first
    is accepted, the second request is rejected, and the command of the
    first is still recorded as active after the failure of the second. *)
Lemma failed_deploy_can_leave_a_command_active :
  fst <$> (EventLoop.inFlight
             (EventLoop.arrivals Sample.racingDeploys
                (EventLoop.boot Sample.w0)) !! 2%nat)
  = Some (PostDeploy (Js.lit "https://h/r.git") (Js.lit "main"))
  /\ deployAccepted (Rejected NotAnError) = false
  /\ activeCommandId
       (EventLoop.app
          (EventLoop.arrive Sample.w0
             (EventLoop.Answered 2 (Rejected NotAnError))
             (EventLoop.arrivals Sample.racingDeploys
                (EventLoop.boot Sample.w0))))
     = Some (Js.lit "cmd-7").
Proof. vm_compute. repeat split. Qed.

(** C4, amended. A click that starts a deployment clears the log, leaves
    the active command as it was and puts one request in flight. When the
    answer to that request arrives, whatever was delivered meanwhile: an
    answer with success and a command identifier records that identifier
    as the active command and leaves the log as it then is; any other
    answer and a rejected request append exactly one entry, of kind
    [error], to the log as it then is, and leave the active command as it
    then is. The failure path does not write the active command. *)
Theorem deploy_clears_log_and_answer_settles :
  (forall (w : world) (m : EventLoop.machine),
      Js.truthy_opt (activeCommandId (EventLoop.app m)) = false ->
      isLoading (EventLoop.app m) = false ->
      Js.trim (gitUrl (EventLoop.app m)) <> [] ->
      let m1 := EventLoop.arrive w (EventLoop.Delivered OnButtonClick) m in
      output (EventLoop.app m1) = []
      /\ activeCommandId (EventLoop.app m1)
         = activeCommandId (EventLoop.app m)
      /\ EventLoop.inFlight m1
         = EventLoop.inFlight m
           ++ [(PostDeploy (Js.trim (gitUrl (EventLoop.app m)))
                  (Js.trim (branch (EventLoop.app m))),
                deployRepo_settle)])
  /\ (forall (w : world) (m : EventLoop.machine) (i : nat) (req : request)
             (r : fetch_outcome),
      EventLoop.inFlight m !! i = Some (req, deployRepo_settle) ->
      let m2 := EventLoop.arrive w (EventLoop.Answered i r) m in
      EventLoop.inFlight m2 = delete i (EventLoop.inFlight m)
      /\ (forall data commandId,
            r = Resolved data ->
            ApiResponse.success data = true ->
            ApiResponse.commandId data = Some commandId ->
            commandId <> [] ->
            output (EventLoop.app m2) = output (EventLoop.app m)
            /\ activeCommandId (EventLoop.app m2) = Some commandId)
      /\ (deployAccepted r = false ->
          (exists e, output (EventLoop.app m2)
                     = output (EventLoop.app m) ++ [e]
                     /\ OutputMessage.type e = Js.lit "error")
          /\ activeCommandId (EventLoop.app m2)
             = activeCommandId (EventLoop.app m))).
Proof.
  split.
  - intros w m Hidle Hloading Hurl m1. subst m1.
    cbn [EventLoop.arrive handle].
    rewrite onClick_dispatch, Hidle, Hloading.
    rewrite (deployRepo_until_await w _ _ Hurl). cbn [EventLoop.park].
    repeat split.
  - intros w m i req r Hk m2. subst m2. cbn [EventLoop.arrive].
    rewrite Hk, deployRepo_settle_until_await. cbn [EventLoop.park].
    cbn [EventLoop.inFlight EventLoop.app].
    split; [reflexivity|]. split.
    + intros data commandId -> Hsucc Hcid Hne.
      rewrite deployRepo_settle_accepted.
      * split; [reflexivity|exact Hcid].
      * cbn. rewrite Hsucc, Hcid. apply truthy_nonempty, Hne.
    + intros Hfail.
      destruct (deployRepo_settle_failed w r (EventLoop.app m) Hfail)
        as [what ->].
      split; [|reflexivity].
      exists (errorMessage (clock w) what). split; reflexivity.
Qed.

Lemma deploy_clears_log_and_answer_settles_witness :
  output Sample.ready <> []
  /\ output
       (EventLoop.app
          (EventLoop.arrive Sample.w_accept
             (EventLoop.Delivered OnButtonClick) Sample.quiet)) = []
  /\ (exists e,
        output
          (EventLoop.app
             (EventLoop.arrive Sample.w_down
                (EventLoop.Answered 0 (Rejected NotAnError))
                (EventLoop.arrive Sample.w_accept
                   (EventLoop.Delivered OnButtonClick) Sample.quiet)))
        = [] ++ [e]
        /\ OutputMessage.type e = Js.lit "error").
Proof.
  assert (Hurl : Js.trim (gitUrl (EventLoop.app Sample.quiet)) <> [])
    by (vm_compute; congruence).
  destruct deploy_clears_log_and_answer_settles as [Hstart Hanswer].
  destruct (Hstart Sample.w_accept Sample.quiet eq_refl eq_refl Hurl)
    as (Hclear & _ & Hflight).
  split; [vm_compute; congruence|]. split; [exact Hclear|].
  destruct (Hanswer Sample.w_down
              (EventLoop.arrive Sample.w_accept
                 (EventLoop.Delivered OnButtonClick) Sample.quiet)
              0%nat _ (Rejected NotAnError)
              ltac:(rewrite Hflight; reflexivity))
    as (_ & _ & Hfail).
  destruct (Hfail eq_refl) as [(e & Hout & Hkind) _].
  exists e. rewrite Hclear in Hout. split; assumption.
Defined.

(** C5. [deployRepo] with an empty or whitespace-only URL returns at
    once: no request is made, nothing is logged and the state, the log
    included, is what it was. *)
Theorem deploy_with_blank_url_does_nothing :
  forall (w : world) (snap st : state),
    forallb Js.is_white_space (gitUrl snap) = true ->
    run w (deployRepo snap) st = (tt, st, []).
Proof.
  intros w snap st Hblank. unfold deployRepo.
  rewrite (trim_white _ Hblank). reflexivity.
Qed.

Lemma deploy_with_blank_url_does_nothing_witness :
  run Sample.w_accept (deployRepo Sample.blankUrl) Sample.blankUrl
  = (tt, Sample.blankUrl, []).
Proof.
  apply (deploy_with_blank_url_does_nothing
           Sample.w_accept Sample.blankUrl Sample.blankUrl).
  reflexivity.
Defined.

(** Socket events delivered while no command is active leave none active. *)
Lemma socket_event_keeps_idle (w : world) (e : event) (st : state) :
  isSocketEvent e = true ->
  Js.truthy_opt (activeCommandId st) = false ->
  Js.truthy_opt (activeCommandId (step w e st)) = false.
Proof.
  intros Hsock Hidle. destruct e as [| |data|data|v|v|]; try discriminate Hsock.
  - exact Hidle.
  - exact Hidle.
  - unfold step. cbn [handle].
    destruct (Js.truthy_opt (SocketMessage.output data)) eqn:Ho.
    + rewrite (commandOutput_updates w data st Ho). exact Hidle.
    + rewrite (commandOutput_discards w data st Ho). exact Hidle.
  - unfold step. cbn [handle].
    destruct (SocketMessage.exitCode data) as [[n| | |]|] eqn:Hcode;
      try (rewrite commandFinished_ignores by (rewrite Hcode; congruence);
           exact Hidle).
    destruct (commandFinished_effect w data st n Hcode) as (_ & -> & _).
    reflexivity.
Qed.

Lemma socket_events_keep_idle (evs : list (world * event)) (st : state) :
  Forall (fun we => isSocketEvent (snd we) = true) evs ->
  Js.truthy_opt (activeCommandId st) = false ->
  Js.truthy_opt (activeCommandId (steps evs st)) = false.
Proof.
  revert st. induction evs as [|[w e] evs IH]; intros st Hall Hidle.
  - exact Hidle.
  - cbn [steps]. apply IH; [exact (Forall_inv_tail Hall)|].
    apply socket_event_keeps_idle; [exact (Forall_inv Hall)|exact Hidle].
Qed.

(** The answer of [/api/deploy] arriving after socket events were
    delivered while the request was in flight: an accepted answer records
    the command and leaves the log as the events made it; any other
    appends one [error] entry to that log and no command is active. *)
Lemma deploy_answer_after_socket_events (w : world)
    (evs : list (world * event)) (r : fetch_outcome) (snap st : state) :
  Js.trim (gitUrl snap) <> [] ->
  Js.truthy_opt (activeCommandId st) = false ->
  Forall (fun we => isSocketEvent (snd we) = true) evs ->
  let st1 := snd (fst (until_await w (deployRepo snap) st)) in
  let st2 := steps evs st1 in
  let st3 := final (run w (deployRepo_settle r) st2) in
  output st1 = []
  /\ (forall data, r = Resolved data -> deployAccepted r = true ->
        output st3 = output st2
        /\ activeCommandId st3 = ApiResponse.commandId data)
  /\ (deployAccepted r = false ->
        (exists m, output st3 = output st2 ++ [m]
                   /\ OutputMessage.type m = Js.lit "error")
        /\ Js.truthy_opt (activeCommandId st3) = false).
Proof.
  intros Hurl Hidle Hsock st1 st2 st3.
  assert (Hst1 : st1 = mkAppState (gitUrl st) (branch st) []
                         (activeCommandId st) (deployedRepos st) true
                         (isConnected st)).
  { unfold st1. rewrite (deployRepo_until_await w snap st Hurl). reflexivity. }
  split; [rewrite Hst1; reflexivity|]. split.
  - intros data -> Hacc. unfold st3.
    rewrite (deployRepo_settle_accepted w data st2 Hacc).
    split; reflexivity.
  - intros Hacc. unfold st3.
    destruct (deployRepo_settle_failed w r st2 Hacc) as [what ->]. split.
    + exists (errorMessage (clock w) what). split; reflexivity.
    + apply (socket_events_keep_idle evs st1 Hsock). rewrite Hst1.
      exact Hidle.
Qed.

(** ** Stopping a deployment *)


Lemma stopProcess_final (w : world) (snap st : state) :
  final (run w (stopProcess snap) st) = st.
Proof.
  unfold stopProcess. destruct (activeCommandId snap) as [commandId|];
    [|reflexivity].
  destruct (Js.truthy commandId); [|reflexivity]. cbn.
  destruct (network w (PostStop commandId)) as [data|err]; [|reflexivity].
  destruct (ApiResponse.success data); reflexivity.
Qed.

(** With a command active, [stopProcess] sends one request, to
    [/api/stop] with that command. *)
Lemma stopProcess_calls (w : world) (st : state) (commandId : Js.str) :
  activeCommandId st = Some commandId ->
  commandId <> [] ->
  net_calls (trace (run w (stopProcess st) st)) = [NetCall (PostStop commandId)].
Proof.
  intros Hactive Hne. unfold stopProcess.
  rewrite Hactive, (truthy_nonempty _ Hne). cbn.
  destruct (network w (PostStop commandId)) as [data|err]; [|reflexivity].
  destruct (ApiResponse.success data); reflexivity.
Qed.



Example stop_with_active_command_keeps_it :
  activeCommandId (step Sample.w_accept OnButtonClick Sample.st0)
  = Some (Js.lit "cmd-1").
Proof. reflexivity. Qed.

(** ** Command identifiers of stream events *)

(** C9, as stated, fails: an event of another command than the active
    one is logged like any other, and a terminal event of another command
    ends the session. *)
Lemma stray_event_changes_log_and_session :
  activeCommandId Sample.st0 <> Some (SocketMessage.commandId Sample.stray)
  /\ output (step Sample.w0 (OnCommandOutput Sample.stray) Sample.st0)
     <> output Sample.st0
  /\ activeCommandId (step Sample.w0 (OnCommandFinished Sample.stray) Sample.st0)
     <> activeCommandId Sample.st0.
Proof. vm_compute. repeat split; discriminate. Qed.

(** C9, amended. The [commandOutput] and [commandFinished] listeners read
    neither the event's [commandId] nor the active command: an event has
    the same effect under any command identifier, and the log it leaves
    is the same under any active command. *)
Theorem stream_events_ignore_command_id :
  forall (w : world) (st : state) (data : SocketMessage.t)
         (commandId : Js.str) (active : option Js.str),
    run w (commandOutput (withCommandId commandId data)) st
    = run w (commandOutput data) st
    /\ run w (commandFinished (withCommandId commandId data)) st
       = run w (commandFinished data) st
    /\ output (step w (OnCommandOutput data) (withActiveCommandId active st))
       = output (step w (OnCommandOutput data) st)
    /\ output (step w (OnCommandFinished data) (withActiveCommandId active st))
       = output (step w (OnCommandFinished data) st).
Proof.
  intros w st data commandId active. split; [reflexivity|].
  split; [reflexivity|]. split.
  - rewrite !step_commandOutput_output. reflexivity.
  - unfold step. cbn [handle].
    destruct (SocketMessage.exitCode data) as [[n| | |]|] eqn:Hcode;
      try (rewrite !commandFinished_ignores by (rewrite Hcode; congruence);
           reflexivity).
    destruct (commandFinished_effect w data st n Hcode) as (-> & _).
    destruct (commandFinished_effect w data (withActiveCommandId active st)
                n Hcode) as (-> & _).
    reflexivity.
Qed.

(** * Further properties of the component *)

(** ** The scan of [findLastIndex] *)

Lemma findLastIndex_from_spec {T : Type} (array : list T)
    (predicate : T -> bool) (n : nat) :
  (findLastIndex_from array predicate n = -1
   /\ forall i v, (i < n)%nat -> array !! i = Some v -> predicate v = false)
  \/ (exists (k : nat) (v : T),
        findLastIndex_from array predicate n = Z.of_nat k
        /\ (k < n)%nat
        /\ array !! k = Some v
        /\ predicate v = true
        /\ forall j u, (k < j < n)%nat -> array !! j = Some u ->
                       predicate u = false).
Proof.
  induction n as [|i IH].
  - left. split; [reflexivity|]. intros i v Hi. lia.
  - simpl. destruct (array !! i) as [v|] eqn:Hv.
    + destruct (predicate v) eqn:Hp.
      * right. exists i, v. repeat split; try assumption; [lia|].
        intros j u Hj. lia.
      * destruct IH as [[Hr Hno]|(k & x & Hr & Hk & Hx & Hpx & Hlast)].
        -- left. split; [exact Hr|]. intros j u Hj Hu.
           destruct (Nat.eq_dec j i) as [->|Hne]; [congruence|].
           apply (Hno j); [lia|exact Hu].
        -- right. exists k, x. repeat split; try assumption; [lia|].
           intros j u Hj Hu.
           destruct (Nat.eq_dec j i) as [->|Hne]; [congruence|].
           apply (Hlast j); [lia|exact Hu].
    + destruct IH as [[Hr Hno]|(k & x & Hr & Hk & Hx & Hpx & Hlast)].
      * left. split; [exact Hr|]. intros j u Hj Hu.
        destruct (Nat.eq_dec j i) as [->|Hne]; [congruence|].
        apply (Hno j); [lia|exact Hu].
      * right. exists k, x. repeat split; try assumption; [lia|].
        intros j u Hj Hu.
        destruct (Nat.eq_dec j i) as [->|Hne]; [congruence|].
        apply (Hlast j); [lia|exact Hu].
Qed.

(** X1. [findLastIndex] returns [-1] exactly when no element satisfies the
    predicate, and otherwise the greatest index whose element does. *)
Theorem findLastIndex_greatest_or_minus_one :
  forall (T : Type) (array : list T) (predicate : T -> bool),
    (findLastIndex array predicate = -1
     /\ forall v, v ∈ array -> predicate v = false)
    \/ (exists (k : nat) (v : T),
          findLastIndex array predicate = Z.of_nat k
          /\ array !! k = Some v
          /\ predicate v = true
          /\ forall j u, (k < j)%nat -> array !! j = Some u ->
                         predicate u = false).
Proof.
  intros T array predicate. unfold findLastIndex.
  destruct (findLastIndex_from_spec array predicate (length array))
    as [[Hr Hno]|(k & v & Hr & Hk & Hv & Hp & Hlast)].
  - left. split; [exact Hr|]. intros v Hin.
    apply list_elem_of_lookup in Hin as [i Hi].
    apply (Hno i v); [|exact Hi]. apply lookup_lt_Some in Hi. exact Hi.
  - right. exists k, v. repeat split; try assumption.
    intros j u Hj Hu. apply (Hlast j u); [|exact Hu].
    apply lookup_lt_Some in Hu. lia.
Qed.

(** ** The log under socket events *)

Lemma step_commandFinished_output (w : world) (data : SocketMessage.t)
    (st : state) :
  output (step w (OnCommandFinished data) st)
  = match Js.as_number (SocketMessage.exitCode data) with
    | Some n => output st ++ [finishedMessage (clock w) n]
    | None => output st
    end.
Proof.
  unfold step. cbn [handle].
  destruct (SocketMessage.exitCode data) as [[n| | |]|] eqn:Hcode;
    try (rewrite commandFinished_ignores by (rewrite Hcode; congruence);
         reflexivity).
  destruct (commandFinished_effect w data st n Hcode) as (-> & _).
  reflexivity.
Qed.

(** The updater keeps the length or adds one. *)
Lemma commandOutput_update_length (now : Z) (data : SocketMessage.t)
    (prev : list OutputMessage.t) :
  (length prev <= length (commandOutput_update now data prev)
   <= length prev + 1)%nat.
Proof.
  unfold commandOutput_update.
  destruct (replacesProgress data);
    [destruct (negb _)|]; rewrite ?length_insert, ?length_app; cbn; lia.
Qed.

Lemma socket_event_keeps_permanent_line (w : world) (e : event) (st : state)
    (i : nat) (m : OutputMessage.t) :
  isSocketEvent e = true ->
  output st !! i = Some m ->
  isProgressEntry m = false ->
  output (step w e st) !! i = Some m.
Proof.
  intros Hsock Hm Hplain.
  destruct e as [| |data|data|v|v|]; try discriminate Hsock.
  - exact Hm.
  - exact Hm.
  - rewrite step_commandOutput_output.
    destruct (Js.truthy_opt (SocketMessage.output data)); [|exact Hm].
    apply commandOutput_update_keeps; assumption.
  - rewrite step_commandFinished_output.
    destruct (Js.as_number (SocketMessage.exitCode data)); [|exact Hm].
    exact (lookup_app_l_Some _ _ _ _ Hm).
Qed.

(** X2. A line that is not a progress line is permanent: through every
    sequence of socket events (connect, disconnect, output and terminal
    events) it keeps its position and content. *)
Theorem socket_events_keep_permanent_lines :
  forall (evs : list (world * event)) (st : state) (i : nat)
         (m : OutputMessage.t),
    Forall (fun we => isSocketEvent (snd we) = true) evs ->
    output st !! i = Some m ->
    isProgressEntry m = false ->
    output (steps evs st) !! i = Some m.
Proof.
  induction evs as [|[w e] evs IH]; intros st i m Hall Hm Hplain.
  - exact Hm.
  - cbn [steps]. apply IH; [exact (Forall_inv_tail Hall)| |exact Hplain].
    apply socket_event_keeps_permanent_line;
      [exact (Forall_inv Hall)|exact Hm|exact Hplain].
Qed.

Lemma socket_events_keep_permanent_lines_witness :
  output
    (steps [(Sample.w0, OnCommandOutput Sample.progress55);
            (Sample.w0, OnCommandFinished Sample.exited0);
            (Sample.w0, OnDisconnect)] Sample.st0) !! 1%nat
  = Some (OutputMessage.mk 2 (Js.lit "cloning") (Js.lit "system") None None).
Proof.
  apply (socket_events_keep_permanent_lines
           [(Sample.w0, OnCommandOutput Sample.progress55);
            (Sample.w0, OnCommandFinished Sample.exited0);
            (Sample.w0, OnDisconnect)] Sample.st0 1%nat).
  - repeat constructor.
  - reflexivity.
  - reflexivity.
Defined.

Lemma step_length (w : world) (e : event) (st : state) :
  (length (output st) <= length (output (step w e st)))%nat
  \/ (e = OnButtonClick
      /\ Js.truthy_opt (activeCommandId st) = false
      /\ isLoading st = false
      /\ Js.trim (gitUrl st) <> []).
Proof.
  destruct e as [| |data|data|v|v|]; try (left; cbn; lia).
  - left. rewrite step_commandOutput_output.
    destruct (Js.truthy_opt (SocketMessage.output data)); [|lia].
    apply commandOutput_update_length.
  - left. rewrite step_commandFinished_output.
    destruct (Js.as_number (SocketMessage.exitCode data));
      rewrite ?length_app; lia.
  - unfold step. cbn [handle]. rewrite onClick_dispatch.
    destruct (Js.truthy_opt (activeCommandId st)) eqn:Hactive.
    + left. rewrite stopProcess_final. lia.
    + destruct (isLoading st) eqn:Hloading; [left; cbn; lia|].
      destruct (Js.trim (gitUrl st)) as [|c u] eqn:Hurl.
      * left. unfold deployRepo. rewrite Hurl. cbn. lia.
      * right. repeat split. congruence.
Qed.

(** X3. The log loses entries only when a click starts a deployment: if
    an event leaves the log shorter than it was, the event is a button
    click in a state with no active command, not loading, and a URL that
    is not blank. Socket events grow it by at most one entry each. *)
Theorem log_shrinks_only_when_deploy_starts :
  forall (w : world) (e : event) (st : state),
    ((length (output (step w e st)) < length (output st))%nat ->
     e = OnButtonClick
     /\ Js.truthy_opt (activeCommandId st) = false
     /\ isLoading st = false
     /\ Js.trim (gitUrl st) <> [])
    /\ (isSocketEvent e = true ->
        (length (output st) <= length (output (step w e st))
         <= length (output st) + 1)%nat).
Proof.
  intros w e st. split.
  - intros Hshorter. destruct (step_length w e st) as [Hle|H]; [lia|exact H].
  - intros Hsock. destruct e as [| |data|data|v|v|]; try discriminate Hsock.
    + cbn. lia.
    + cbn. lia.
    + rewrite step_commandOutput_output.
      destruct (Js.truthy_opt (SocketMessage.output data)); [|lia].
      apply commandOutput_update_length.
    + rewrite step_commandFinished_output.
      destruct (Js.as_number (SocketMessage.exitCode data));
        rewrite ?length_app; cbn; lia.
Qed.

Lemma log_shrinks_only_when_deploy_starts_witness :
  OnButtonClick = OnButtonClick
  /\ Js.truthy_opt (activeCommandId Sample.ready) = false
  /\ isLoading Sample.ready = false
  /\ Js.trim (gitUrl Sample.ready) <> [].
Proof.
  apply (proj1 (log_shrinks_only_when_deploy_starts
                  Sample.w_accept OnButtonClick Sample.ready)).
  vm_compute. lia.
Defined.

(** ** Runs of progress updates *)

(** What a sequence of [commandOutput] payloads does to the log alone. *)
Lemma steps_outputEvents_output (evs : list (world * SocketMessage.t))
    (st : state) :
  output (steps (outputEvents evs) st)
  = foldl (fun log we =>
             if Js.truthy_opt (SocketMessage.output (snd we))
             then commandOutput_update (clock (fst we)) (snd we) log
             else log) (output st) evs.
Proof.
  revert st. induction evs as [|[w data] evs IH]; intros st; [reflexivity|].
  rewrite steps_outputEvents_cons, IH, step_commandOutput_output.
  reflexivity.
Qed.

Lemma progressUpdate_entry (w : world) (data : SocketMessage.t) :
  progressUpdate (w, data) ->
  replacesProgress data = true
  /\ isProgressEntry (outputMessage (clock w) data) = true.
Proof.
  intros (_ & Hip & Hrl). cbn in Hip, Hrl.
  unfold replacesProgress, isProgressEntry, outputMessage. cbn.
  rewrite Hip, Hrl. split; reflexivity.
Qed.

(** Once the log has a last progress line at [k], a run of progress
    updates keeps overwriting position [k]. *)
Lemma progress_updates_collapse_at (evs : list (world * SocketMessage.t))
    (log : list OutputMessage.t) (k : nat) (p : OutputMessage.t) :
  Forall progressUpdate evs ->
  log !! k = Some p ->
  isProgressEntry p = true ->
  (forall j u, (k < j)%nat -> log !! j = Some u -> isProgressEntry u = false) ->
  foldl (fun log we =>
           if Js.truthy_opt (SocketMessage.output (snd we))
           then commandOutput_update (clock (fst we)) (snd we) log
           else log) log evs
  = match list.last evs with
    | Some we => <[k := outputMessage (clock (fst we)) (snd we)]> log
    | None => log
    end.
Proof.
  revert log p. induction evs as [|[w data] evs IH];
    intros log p Hall Hp Hprog Hlast; [reflexivity|].
  pose proof (Forall_inv Hall) as Hupd. apply Forall_inv_tail in Hall.
  destruct (progressUpdate_entry w data Hupd) as [Hrep Hnew].
  destruct Hupd as (Htext & _). cbn in Htext.
  cbn [foldl fst snd]. rewrite Htext.
  rewrite (commandOutput_update_replaces _ data log k p Hrep Hp Hprog Hlast).
  assert (Hk : (k < length log)%nat) by (apply lookup_lt_Some in Hp; exact Hp).
  rewrite (IH (<[k := outputMessage (clock w) data]> log)
              (outputMessage (clock w) data) Hall).
  - rewrite last_cons. destruct (list.last evs) as [we|]; [|reflexivity].
    apply list_insert_insert_eq.
  - apply list_lookup_insert_eq. exact Hk.
  - exact Hnew.
  - intros j u Hj Hu. rewrite list_lookup_insert_ne in Hu by lia.
    exact (Hlast j u Hj Hu).
Qed.

(** X4. A run of progress updates collapses into one line. Folded into a
    log whose last progress line is at [k], the run leaves the log as it
    was but for position [k], which holds the entry of the last update;
    folded into a log with no progress line, it leaves the log followed by
    the entry of the last update alone. *)
Theorem progress_run_collapses_into_one_line :
  forall (evs : list (world * SocketMessage.t)) (st : state)
         (w : world) (data : SocketMessage.t),
    Forall progressUpdate evs ->
    list.last evs = Some (w, data) ->
    (forall (k : nat) (p : OutputMessage.t),
        output st !! k = Some p ->
        isProgressEntry p = true ->
        (forall j u, (k < j)%nat -> output st !! j = Some u ->
                     isProgressEntry u = false) ->
        output (steps (outputEvents evs) st)
        = <[k := outputMessage (clock w) data]> (output st))
    /\ ((forall u, u ∈ output st -> isProgressEntry u = false) ->
        output (steps (outputEvents evs) st)
        = output st ++ [outputMessage (clock w) data]).
Proof.
  intros evs st w data Hall Hlast. split.
  - intros k p Hp Hprog Hafter.
    rewrite steps_outputEvents_output,
      (progress_updates_collapse_at evs (output st) k p Hall Hp Hprog Hafter),
      Hlast.
    reflexivity.
  - intros Hno. rewrite steps_outputEvents_output.
    destruct evs as [|[w1 d1] evs]; [discriminate Hlast|].
    pose proof (Forall_inv Hall) as Hupd. apply Forall_inv_tail in Hall.
    destruct (progressUpdate_entry w1 d1 Hupd) as [_ Hnew].
    destruct Hupd as (Htext & _). cbn in Htext.
    cbn [foldl fst snd]. rewrite Htext.
    rewrite (commandOutput_update_no_progress _ d1 (output st) Hno).
    rewrite (progress_updates_collapse_at evs _ (length (output st))
               (outputMessage (clock w1) d1) Hall).
    + rewrite last_cons in Hlast. destruct (list.last evs) as [we|].
      * injection Hlast as ->. cbn [fst snd].
        rewrite insert_app_r_alt by lia. rewrite Nat.sub_diag. reflexivity.
      * injection Hlast as -> ->. reflexivity.
    + apply list_lookup_middle. reflexivity.
    + exact Hnew.
    + intros j u Hj Hu. apply lookup_lt_Some in Hu.
      rewrite length_app in Hu. cbn in Hu. lia.
Qed.

Lemma progress_run_collapses_into_one_line_witness :
  output (steps (outputEvents [(Sample.w0, Sample.progress10);
                               (Sample.w0, Sample.progress55)]) Sample.idle)
  = output Sample.idle ++ [outputMessage (clock Sample.w0) Sample.progress55].
Proof.
  apply (proj2 (progress_run_collapses_into_one_line
                  [(Sample.w0, Sample.progress10);
                   (Sample.w0, Sample.progress55)]
                  Sample.idle Sample.w0 Sample.progress55
                  ltac:(repeat constructor) eq_refl)).
  intros u Hu. inversion Hu.
Defined.

(** ** What is on screen *)

Lemma strictEquals_eq (a b : Js.str) : View.strictEquals a b = true <-> a = b.
Proof.
  revert b. induction a as [|c a IH]; intros [|d b]; cbn.
  - split; reflexivity.
  - split; discriminate.
  - split; discriminate.
  - rewrite andb_true_iff, N.eqb_eq, IH.
    split; [intros [-> ->]; reflexivity|intros [= -> ->]; auto].
Qed.

Lemma strictEquals_neq (a b : Js.str) : View.strictEquals a b = false <-> a <> b.
Proof.
  rewrite <- strictEquals_eq. destruct (View.strictEquals a b); split; congruence.
Qed.

(** X5. After a terminal event whose exit code is a safe integer the
    screen shows one more line, green for exit code 0 and red for any
    other, with the decimal digits of the exit code in its text, and the
    button is enabled, green and reads [Start Deployment], whatever the
    state was before. *)
Theorem terminal_event_on_screen :
  forall (w : world) (st : state) (data : SocketMessage.t) (exitCode : Z),
    SocketMessage.exitCode data = Some (Js.VNumber exitCode) ->
    Js.is_safe_integer exitCode = true ->
    let st' := step w (OnCommandFinished data) st in
    View.renderOutput (output st')
    = View.renderOutput (output st)
      ++ [View.mkLine (clock w)
            (if exitCode =? 0 then Js.lit "text-green-400"
             else Js.lit "text-red-400")
            (Js.lit "Process finished with exit code: "
               ++ Js.number_to_string exitCode)]
    /\ View.buttonLabel st' = Js.lit "Start Deployment"
    /\ View.buttonColour st' = Js.lit "bg-green-500 hover:bg-green-600"
    /\ View.buttonDisabled st' = false.
Proof.
  intros w st data exitCode Hcode _ st'.
  assert (Hout : output st'
                 = output st ++ [finishedMessage (clock w) exitCode])
    by exact (proj1 (commandFinished_effect w data st exitCode Hcode)).
  assert (Hactive : activeCommandId st' = None)
    by exact (proj1 (proj2 (commandFinished_effect w data st exitCode Hcode))).
  assert (Hloading : isLoading st' = false)
    by exact (proj1 (proj2 (proj2
                (commandFinished_effect w data st exitCode Hcode)))).
  unfold View.buttonLabel, View.buttonColour, View.buttonDisabled.
  rewrite Hout, Hactive, Hloading. split; [|repeat split].
  unfold View.renderOutput. rewrite fmap_app. f_equal. cbn [fmap list_fmap].
  unfold finishedMessage. cbn [OutputMessage.id OutputMessage.type
                                 OutputMessage.text].
  destruct (exitCode =? 0); reflexivity.
Qed.

Lemma terminal_event_on_screen_witness :
  View.buttonLabel (step Sample.w0 (OnCommandFinished Sample.exited2) Sample.st0)
  = Js.lit "Start Deployment".
Proof.
  exact (proj1 (proj2 (terminal_event_on_screen
                         Sample.w0 Sample.st0 Sample.exited2 2 eq_refl
                         eq_refl))).
Defined.

Lemma getOutputClassName_cases (type : Js.str) :
  ((type = Js.lit "stderr" \/ type = Js.lit "error")
   /\ View.getOutputClassName type = Js.lit "text-red-400")
  \/ (type = Js.lit "system"
      /\ View.getOutputClassName type = Js.lit "text-blue-400")
  \/ (type <> Js.lit "stderr" /\ type <> Js.lit "error"
      /\ type <> Js.lit "system"
      /\ View.getOutputClassName type = Js.lit "text-green-400").
Proof.
  unfold View.getOutputClassName.
  destruct (View.strictEquals type (Js.lit "stderr")) eqn:H1.
  { apply strictEquals_eq in H1. left. split; [left; exact H1|reflexivity]. }
  destruct (View.strictEquals type (Js.lit "error")) eqn:H2.
  { apply strictEquals_eq in H2. left. split; [right; exact H2|reflexivity]. }
  apply strictEquals_neq in H1, H2.
  destruct (View.strictEquals type (Js.lit "success")) eqn:H3.
  { apply strictEquals_eq in H3. right. right. repeat split; try assumption.
    rewrite H3. intros H. vm_compute in H. discriminate H. }
  destruct (View.strictEquals type (Js.lit "system")) eqn:H4.
  { apply strictEquals_eq in H4. right. left. split; [exact H4|reflexivity]. }
  apply strictEquals_neq in H4. right. right. repeat split; assumption.
Qed.

Lemma colours_differ :
  Js.lit "text-red-400" <> Js.lit "text-green-400"
  /\ Js.lit "text-red-400" <> Js.lit "text-blue-400"
  /\ Js.lit "text-blue-400" <> Js.lit "text-green-400".
Proof. repeat split; intros H; vm_compute in H; discriminate H. Qed.

Lemma kinds_differ :
  Js.lit "stderr" <> Js.lit "stdout" /\ Js.lit "error" <> Js.lit "stdout"
  /\ Js.lit "system" <> Js.lit "stdout"
  /\ Js.lit "stderr" <> Js.lit "system" /\ Js.lit "error" <> Js.lit "system"
  /\ Js.lit "stderr" <> [] /\ Js.lit "error" <> [] /\ Js.lit "system" <> [].
Proof. repeat split; intros H; vm_compute in H; discriminate H. Qed.

(** The kind of the entry is the payload's, when that is not the default
    one. *)
Lemma outputMessage_type (now : Z) (data : SocketMessage.t) (t : Js.str) :
  t <> Js.lit "stdout" ->
  t <> [] ->
  OutputMessage.type (outputMessage now data) = t
  <-> SocketMessage.outputType data = Some t.
Proof.
  intros Ht Hne. unfold outputMessage. cbn [OutputMessage.type].
  destruct (SocketMessage.outputType data) as [[|c u]|]; cbn.
  - split; [congruence|]. intros [= <-]. congruence.
  - split; [intros <-; reflexivity|intros [= <-]; reflexivity].
  - split; [congruence|discriminate].
Qed.

(** X6. The colour of an output line follows the payload's [outputType]:
    red exactly for [stderr] and [error], blue exactly for [system], and
    green for everything else, an absent, empty or unknown kind
    included. *)
Theorem output_line_colour :
  forall (now : Z) (data : SocketMessage.t),
    let colour :=
      View.getOutputClassName
        (OutputMessage.type (outputMessage now data)) in
    (colour = Js.lit "text-red-400"
     <-> (SocketMessage.outputType data = Some (Js.lit "stderr")
          \/ SocketMessage.outputType data = Some (Js.lit "error")))
    /\ (colour = Js.lit "text-blue-400"
        <-> SocketMessage.outputType data = Some (Js.lit "system"))
    /\ (colour <> Js.lit "text-red-400" -> colour <> Js.lit "text-blue-400" ->
        colour = Js.lit "text-green-400").
Proof.
  intros now data colour.
  destruct colours_differ as (Hrg & Hrb & Hbg).
  destruct kinds_differ as (K1 & K2 & K3 & K4 & K5 & K6 & K7 & K8).
  pose proof (outputMessage_type now data _ K1 K6) as Hstderr.
  pose proof (outputMessage_type now data _ K2 K7) as Herror.
  pose proof (outputMessage_type now data _ K3 K8) as Hsystem.
  destruct (getOutputClassName_cases
              (OutputMessage.type (outputMessage now data)))
    as [[Hty Hc]|[[Hty Hc]|(N1 & N2 & N3 & Hc)]];
    fold colour in Hc; rewrite Hc.
  - split; [|split].
    + split; [intros _|reflexivity].
      destruct Hty as [Hty|Hty]; [left; apply Hstderr|right; apply Herror];
        exact Hty.
    + split; [congruence|]. intros Hs. apply Hsystem in Hs.
      destruct Hty; congruence.
    + congruence.
  - split; [|split].
    + split; [congruence|]. intros [Hs|Hs];
        [apply Hstderr in Hs|apply Herror in Hs]; congruence.
    + split; [intros _; apply Hsystem; exact Hty|reflexivity].
    + congruence.
  - split; [|split].
    + split; [congruence|]. intros [Hs|Hs];
        [apply Hstderr in Hs|apply Herror in Hs]; congruence.
    + split; [congruence|]. intros Hs. apply Hsystem in Hs. congruence.
    + reflexivity.
Qed.

Lemma output_line_colour_witness :
  View.getOutputClassName
    (OutputMessage.type (outputMessage 0 Sample.warning))
  = Js.lit "text-red-400".
Proof.
  apply (proj1 (output_line_colour 0 Sample.warning)).
  left. reflexivity.
Defined.

(** ** The repo list *)

(** X7. [fetchDeployedRepos] sends one request and touches nothing but
    the repo list: an answer carrying [repos] replaces the list wholesale,
    an answer without it keeps the list, and a rejected request keeps the
    list and is reported on the console only. *)
Theorem repo_refresh_outcomes :
  forall (M : Type) (w : world) (st : AppState M),
    run w fetchDeployedRepos st
    = (tt,
       mkAppState (gitUrl st) (branch st) (output st) (activeCommandId st)
         (match network w GetRepos with
          | Resolved data =>
              match ApiResponse.repos data with
              | Some repos => repos
              | None => deployedRepos st
              end
          | Rejected _ => deployedRepos st
          end)
         (isLoading st) (isConnected st),
       NetCall GetRepos
         :: match network w GetRepos with
            | Resolved _ => []
            | Rejected _ => [ConsoleError (Js.lit "Failed to fetch repos:")]
            end).
Proof.
  intros M w st. unfold fetchDeployedRepos. cbn.
  destruct (network w GetRepos) as [data|err]; cbn.
  - destruct (ApiResponse.repos data); destruct st; reflexivity.
  - destruct st; reflexivity.
Qed.

(** ** Stopping, seen from the button *)

(** X8. A click while a command is active sends exactly one request,
    [/api/stop] with the active command, and leaves the state as it was
    whatever the answer; a refusal or a rejected request is written to the
    console and nowhere else. *)
Theorem stop_click_targets_active_command :
  forall (w : world) (st : state) (commandId : Js.str),
    activeCommandId st = Some commandId ->
    commandId <> [] ->
    run w (handle st OnButtonClick) st
    = (tt, st,
       NetCall (PostStop commandId)
         :: match network w (PostStop commandId) with
            | Resolved data =>
                if ApiResponse.success data then []
                else [ConsoleError (Js.lit "Failed to stop process:")]
            | Rejected _ => [ConsoleError (Js.lit "Failed to stop process:")]
            end).
Proof.
  intros w st commandId Hactive Hne. cbn [handle].
  rewrite onClick_dispatch, Hactive. cbn [Js.truthy_opt].
  rewrite (truthy_nonempty _ Hne). unfold stopProcess.
  rewrite Hactive, (truthy_nonempty _ Hne). cbn.
  destruct (network w (PostStop commandId)) as [data|err]; [|reflexivity].
  destruct (ApiResponse.success data); reflexivity.
Qed.

Lemma stop_click_targets_active_command_witness :
  run Sample.w0 (handle Sample.st0 OnButtonClick) Sample.st0
  = (tt, Sample.st0,
     [NetCall (PostStop (Js.lit "cmd-1"));
      ConsoleError (Js.lit "Failed to stop process:")]).
Proof.
  assert (Hne : Js.lit "cmd-1" <> []) by (vm_compute; congruence).
  exact (stop_click_targets_active_command
           Sample.w0 Sample.st0 (Js.lit "cmd-1") eq_refl Hne).
Defined.

(** ** The request of a deployment *)

Lemma trimStart_split (s : Js.str) :
  exists l, s = l ++ Js.trimStart s
            /\ Forall (fun c => Js.is_white_space c = true) l.
Proof.
  induction s as [|c s (l & Hs & Hl)].
  - exists []. split; [reflexivity|constructor].
  - cbn. destruct (Js.is_white_space c) eqn:Hc.
    + exists (c :: l). split; [cbn; congruence|constructor; assumption].
    + exists []. split; [reflexivity|constructor].
Qed.

Lemma trimStart_last (s : Js.str) :
  Js.trimStart s <> [] -> list.last (Js.trimStart s) = list.last s.
Proof.
  induction s as [|c s IH]; [reflexivity|]. cbn [Js.trimStart].
  destruct (Js.is_white_space c); [|reflexivity].
  intros Hne. rewrite (IH Hne). destruct s as [|d s]; [contradiction|].
  reflexivity.
Qed.

(** [trim] removes a run of blanks at each end and nothing else, and what
    it leaves neither starts nor ends with a blank. *)
Lemma trim_spec (s : Js.str) :
  (exists l r, s = l ++ Js.trim s ++ r
               /\ Forall (fun c => Js.is_white_space c = true) l
               /\ Forall (fun c => Js.is_white_space c = true) r)
  /\ (forall c, list.head (Js.trim s) = Some c -> Js.is_white_space c = false)
  /\ (forall c, list.last (Js.trim s) = Some c -> Js.is_white_space c = false).
Proof.
  unfold Js.trim, Js.trimEnd. split; [|split].
  - destruct (trimStart_split s) as (l & Hs & Hl).
    destruct (trimStart_split (reverse (Js.trimStart s))) as (r & Ht & Hr).
    exists l, (reverse r). split; [|split].
    + rewrite <- reverse_app, <- Ht, reverse_involutive. exact Hs.
    + exact Hl.
    + apply Forall_reverse. exact Hr.
  - intros c. rewrite head_reverse. intros Hc.
    assert (Hne : Js.trimStart (reverse (Js.trimStart s)) <> [])
      by (intros Heq; rewrite Heq in Hc; discriminate Hc).
    rewrite (trimStart_last _ Hne), last_reverse in Hc.
    destruct (Js.trimStart s) as [|d t] eqn:Hs; [discriminate Hc|].
    injection Hc as <-. exact (trimStart_head s t d Hs).
  - intros c. rewrite last_reverse. intros Hc.
    destruct (Js.trimStart (reverse (Js.trimStart s))) as [|d t] eqn:Hs;
      [discriminate Hc|].
    injection Hc as <-. exact (trimStart_head _ t d Hs).
Qed.

(** X9. A deployment that starts sends exactly one request, [/api/deploy]
    with the URL and the branch as typed but for the blanks around them:
    each is the typed text less a run of blanks at either end, neither
    starts nor ends with a blank, and the URL is not empty. The branch is
    sent whatever it is. *)
Theorem deploy_request_is_trimmed :
  forall (w : world) (snap st : state),
    Js.trim (gitUrl snap) <> [] ->
    exists url br,
      net_calls (trace (run w (deployRepo snap) st))
      = [NetCall (PostDeploy url br)]
      /\ url <> []
      /\ (exists l r, gitUrl snap = l ++ url ++ r
                      /\ Forall (fun c => Js.is_white_space c = true) l
                      /\ Forall (fun c => Js.is_white_space c = true) r)
      /\ (exists l r, branch snap = l ++ br ++ r
                      /\ Forall (fun c => Js.is_white_space c = true) l
                      /\ Forall (fun c => Js.is_white_space c = true) r)
      /\ (forall c, list.head url = Some c \/ list.last url = Some c
                    \/ list.head br = Some c \/ list.last br = Some c ->
                    Js.is_white_space c = false).
Proof.
  intros w snap st Hurl.
  exists (Js.trim (gitUrl snap)), (Js.trim (branch snap)).
  destruct (trim_spec (gitUrl snap)) as (Hsplit & Hhead & Hlast).
  destruct (trim_spec (branch snap)) as (Hsplit' & Hhead' & Hlast').
  split; [|repeat split; try assumption].
  - rewrite (deployRepo_run w snap st Hurl). cbn [trace snd].
    set (st1 := mkAppState _ _ _ _ _ _ _).
    destruct (deployAccepted
                (network w (PostDeploy (Js.trim (gitUrl snap))
                              (Js.trim (branch snap))))) eqn:Hacc.
    + destruct (network w _) as [data|err]; [|discriminate Hacc].
      rewrite (deployRepo_settle_accepted w data st1 Hacc). reflexivity.
    + destruct (deployRepo_settle_failed w _ st1 Hacc) as [what ->].
      reflexivity.
  - intros c [H|[H|[H|H]]]; auto.
Qed.

Lemma deploy_request_is_trimmed_witness :
  exists url br,
    net_calls (trace (run Sample.w_accept (deployRepo Sample.ready)
                        Sample.ready))
    = [NetCall (PostDeploy url br)]
    /\ url <> [].
Proof.
  assert (Hurl : Js.trim (gitUrl Sample.ready) <> [])
    by (vm_compute; congruence).
  destruct (deploy_request_is_trimmed Sample.w_accept Sample.ready
              Sample.ready Hurl) as (url & br & Hcalls & Hne & _).
  exists url, br. split; assumption.
Defined.

(** ** A deployment, seen from the button *)

Lemma click_starts_deploy (w : world) (st : state) :
  Js.truthy_opt (activeCommandId st) = false ->
  isLoading st = false ->
  Js.trim (gitUrl st) <> [] ->
  step w OnButtonClick st
  = final (run w
             (deployRepo_settle
                (network w (PostDeploy (Js.trim (gitUrl st))
                              (Js.trim (branch st)))))
             (mkAppState (gitUrl st) (branch st) [] (activeCommandId st)
                (deployedRepos st) true (isConnected st))).
Proof.
  intros Hidle Hloading Hurl. unfold step. cbn [handle].
  rewrite onClick_dispatch, Hidle, Hloading.
  rewrite (deployRepo_run w st st Hurl). reflexivity.
Qed.

(** X10. After a click whose deployment the service accepts, the log is
    empty and the button, though it reads [Deploying...] on grey, is
    enabled: the next click sends one request, [/api/stop] with the
    accepted command. *)
Theorem accepted_deploy_on_screen :
  forall (w : world) (st : state) (data : ApiResponse.t) (commandId : Js.str),
    Js.truthy_opt (activeCommandId st) = false ->
    isLoading st = false ->
    Js.trim (gitUrl st) <> [] ->
    network w (PostDeploy (Js.trim (gitUrl st)) (Js.trim (branch st)))
    = Resolved data ->
    ApiResponse.success data = true ->
    ApiResponse.commandId data = Some commandId ->
    commandId <> [] ->
    let st' := step w OnButtonClick st in
    View.renderOutput (output st') = []
    /\ View.buttonLabel st' = Js.lit "Deploying..."
    /\ View.buttonColour st' = Js.lit "bg-gray-400"
    /\ View.buttonDisabled st' = false
    /\ forall w',
         net_calls (trace (run w' (handle st' OnButtonClick) st'))
         = [NetCall (PostStop commandId)].
Proof.
  intros w st data commandId Hidle Hloading Hurl Hnet Hsucc Hcid Hne st'.
  assert (Hst' : st' = mkAppState (gitUrl st) (branch st) [] (Some commandId)
                         (deployedRepos st) true (isConnected st)).
  { unfold st'. rewrite (click_starts_deploy w st Hidle Hloading Hurl), Hnet.
    rewrite deployRepo_settle_accepted.
    - unfold withActiveCommandId. cbn. rewrite Hcid. reflexivity.
    - cbn. rewrite Hsucc, Hcid. apply truthy_nonempty, Hne. }
  rewrite Hst'.
  unfold View.buttonLabel, View.buttonColour, View.buttonDisabled. cbn.
  rewrite (truthy_nonempty _ Hne). repeat split.
  intros w'. cbn [handle]. rewrite onClick_dispatch.
  cbn [activeCommandId Js.truthy_opt]. rewrite (truthy_nonempty _ Hne).
  apply stopProcess_calls; [reflexivity|exact Hne].
Qed.

Lemma accepted_deploy_on_screen_witness :
  View.buttonLabel (step Sample.w_accept OnButtonClick Sample.ready)
  = Js.lit "Deploying..."
  /\ View.buttonDisabled (step Sample.w_accept OnButtonClick Sample.ready)
     = false.
Proof.
  assert (Hurl : Js.trim (gitUrl Sample.ready) <> [])
    by (vm_compute; congruence).
  assert (Hne : Js.lit "cmd-7" <> []) by (vm_compute; congruence).
  destruct (accepted_deploy_on_screen Sample.w_accept Sample.ready
              (ApiResponse.mk true (Some (Js.lit "cmd-7")) None None)
              (Js.lit "cmd-7") eq_refl eq_refl Hurl eq_refl eq_refl eq_refl
              Hne) as (_ & Hlabel & _ & Hdisabled & _).
  split; assumption.
Defined.

(** X11. After a click whose deployment fails, the screen shows one red
    line and nothing else in the log: [Error: ] followed by the reason the
    service gave, by the message of the error thrown, or by
    [Unknown error] when there is neither; the button is enabled and reads
    [Start Deployment] again, and nothing is retried: one request was
    made. *)
Theorem failed_deploy_on_screen :
  forall (w : world) (st : state),
    Js.truthy_opt (activeCommandId st) = false ->
    isLoading st = false ->
    Js.trim (gitUrl st) <> [] ->
    let req := PostDeploy (Js.trim (gitUrl st)) (Js.trim (branch st)) in
    deployAccepted (network w req) = false ->
    let st' := step w OnButtonClick st in
    View.renderOutput (output st')
    = [View.mkLine (clock w) (Js.lit "text-red-400")
         (Js.lit "Error: "
            ++ match network w req with
               | Resolved data =>
                   Js.or_else (ApiResponse.error data)
                     (Js.lit "Unknown error")
               | Rejected (ErrorObject message) => message
               | Rejected NotAnError => Js.lit "Unknown error"
               end)]
    /\ View.buttonLabel st' = Js.lit "Start Deployment"
    /\ View.buttonDisabled st' = false
    /\ net_calls (trace (run w (handle st OnButtonClick) st)) = [NetCall req].
Proof.
  intros w st Hidle Hloading Hurl req Hfail st'.
  assert (Hst' : st' = final (run w (deployRepo_settle (network w req))
                                (mkAppState (gitUrl st) (branch st) []
                                   (activeCommandId st) (deployedRepos st)
                                   true (isConnected st))))
    by exact (click_starts_deploy w st Hidle Hloading Hurl).
  assert (Hcalls : net_calls (trace (run w (handle st OnButtonClick) st))
                   = [NetCall req]).
  { cbn [handle]. rewrite onClick_dispatch, Hidle, Hloading.
    rewrite (deployRepo_run w st st Hurl). fold req.
    destruct (deployRepo_settle_failed w (network w req)
                (mkAppState (gitUrl st) (branch st) [] (activeCommandId st)
                   (deployedRepos st) true (isConnected st)) Hfail)
      as [what ->].
    reflexivity. }
  rewrite Hst'. clear Hst'.
  unfold View.buttonLabel, View.buttonDisabled.
  destruct (network w req) as [data|[message|]];
    cbn [deployAccepted] in Hfail; cbn [deployRepo_settle];
    try rewrite Hfail; cbn; rewrite Hidle; repeat split; exact Hcalls.
Qed.

Lemma failed_deploy_on_screen_witness :
  View.renderOutput (output (step Sample.w_refuse OnButtonClick Sample.ready))
  = [View.mkLine (clock Sample.w_refuse) (Js.lit "text-red-400")
       (Js.lit "Error: " ++ Js.lit "no such repo")].
Proof.
  assert (Hurl : Js.trim (gitUrl Sample.ready) <> [])
    by (vm_compute; congruence).
  exact (proj1 (failed_deploy_on_screen Sample.w_refuse Sample.ready
                  eq_refl eq_refl Hurl eq_refl)).
Defined.

(** ** Who writes what *)

Lemma click_frame (w : world) (st : state) :
  let st' := step w OnButtonClick st in
  gitUrl st' = gitUrl st /\ branch st' = branch st
  /\ deployedRepos st' = deployedRepos st
  /\ isConnected st' = isConnected st.
Proof.
  unfold step. cbn [handle]. rewrite onClick_dispatch.
  destruct (Js.truthy_opt (activeCommandId st)).
  { rewrite stopProcess_final. repeat split. }
  destruct (isLoading st); [repeat split|].
  destruct (Js.trim (gitUrl st)) as [|c u] eqn:Hurl.
  { unfold deployRepo. rewrite Hurl. repeat split. }
  assert (Hne : Js.trim (gitUrl st) <> []) by congruence.
  rewrite (deployRepo_run w st st Hne). cbn [final fst snd].
  set (r := network w _). set (st1 := mkAppState _ _ _ _ _ _ _).
  destruct (deployAccepted r) eqn:Hacc.
  - destruct r as [data|err]; [|discriminate Hacc].
    rewrite (deployRepo_settle_accepted w data st1 Hacc). repeat split.
  - destruct (deployRepo_settle_failed w r st1 Hacc) as [what ->].
    repeat split.
Qed.

Lemma commandFinished_frame (w : world) (data : SocketMessage.t) (st : state) :
  let st' := step w (OnCommandFinished data) st in
  gitUrl st' = gitUrl st /\ branch st' = branch st
  /\ isConnected st' = isConnected st
  /\ ((forall n, SocketMessage.exitCode data <> Some (Js.VNumber n)) ->
      st' = st).
Proof.
  unfold step. cbn [handle].
  destruct (SocketMessage.exitCode data) as [[n| | |]|] eqn:Hcode;
    try (rewrite commandFinished_ignores by (rewrite Hcode; congruence);
         repeat split).
  unfold commandFinished. rewrite Hcode. cbn.
  destruct (network w GetRepos) as [resp|err]; cbn.
  - destruct (ApiResponse.repos resp); cbn; repeat split;
      intros H; exfalso; exact (H n eq_refl).
  - repeat split. intros H; exfalso; exact (H n eq_refl).
Qed.

(** X12. Each field of the state has its own writers. The URL and the
    branch change only by the user's typing in their fields, the
    connection flag only on [connect] and [disconnect], and the repo list
    only on a terminal event with a numeric exit code: no socket event
    overwrites what the user typed and no click or keystroke touches the
    repo list. *)
Theorem fields_change_only_by_their_events :
  forall (w : world) (e : event) (st : state),
    let st' := step w e st in
    (gitUrl st' <> gitUrl st -> e = OnGitUrlChange (gitUrl st'))
    /\ (branch st' <> branch st -> e = OnBranchChange (branch st'))
    /\ (isConnected st' <> isConnected st -> e = OnConnect \/ e = OnDisconnect)
    /\ (deployedRepos st' <> deployedRepos st ->
        exists data n,
          e = OnCommandFinished data
          /\ SocketMessage.exitCode data = Some (Js.VNumber n)).
Proof.
  intros w e st st'. destruct e as [| |data|data|v|v|].
  - subst st'. cbn. repeat split; try congruence. intros _. left. reflexivity.
  - subst st'. cbn. repeat split; try congruence. intros _. right. reflexivity.
  - assert (Hst' : gitUrl st' = gitUrl st /\ branch st' = branch st
                   /\ isConnected st' = isConnected st
                   /\ deployedRepos st' = deployedRepos st).
    { subst st'. unfold step. cbn [handle].
      destruct (Js.truthy_opt (SocketMessage.output data)) eqn:Ho.
      - rewrite (commandOutput_updates w data st Ho). repeat split.
      - rewrite (commandOutput_discards w data st Ho). repeat split. }
    destruct Hst' as (-> & -> & -> & ->). repeat split; congruence.
  - destruct (commandFinished_frame w data st) as (Hurl & Hbranch & Hconn & Hno).
    fold st' in Hurl, Hbranch, Hconn, Hno. rewrite Hurl, Hbranch, Hconn.
    repeat split; try congruence. intros Hrepos.
    destruct (SocketMessage.exitCode data) as [[n| | |]|] eqn:Hcode;
      try (exfalso; apply Hrepos; rewrite Hno by congruence; reflexivity).
    exists data, n. split; [reflexivity|exact Hcode].
  - subst st'. cbn. repeat split; congruence.
  - subst st'. cbn. repeat split; congruence.
  - destruct (click_frame w st) as (Hurl & Hbranch & Hrepos & Hconn).
    fold st' in Hurl, Hbranch, Hrepos, Hconn.
    rewrite Hurl, Hbranch, Hrepos, Hconn. repeat split; congruence.
Qed.

Lemma fields_change_only_by_their_events_witness :
  OnGitUrlChange (Js.lit "x")
  = OnGitUrlChange
      (gitUrl (step Sample.w0 (OnGitUrlChange (Js.lit "x")) Sample.st0)).
Proof.
  apply (proj1 (fields_change_only_by_their_events
                  Sample.w0 (OnGitUrlChange (Js.lit "x")) Sample.st0)).
  vm_compute. congruence.
Defined.

Lemma deployRepo_calls (w : world) (snap st : state) :
  Js.trim (gitUrl snap) <> [] ->
  net_calls (trace (run w (deployRepo snap) st))
  = [NetCall (PostDeploy (Js.trim (gitUrl snap)) (Js.trim (branch snap)))].
Proof.
  intros Hurl. rewrite (deployRepo_run w snap st Hurl). cbn [trace snd].
  set (st1 := mkAppState _ _ _ _ _ _ _). set (r := network w _).
  destruct (deployAccepted r) eqn:Hacc.
  - destruct r as [data|err]; [|discriminate Hacc].
    rewrite (deployRepo_settle_accepted w data st1 Hacc). reflexivity.
  - destruct (deployRepo_settle_failed w r st1 Hacc) as [what ->].
    reflexivity.
Qed.

(** X13. Handling one event sends at most one request, and only a click
    or a terminal event with a numeric exit code sends any: output events,
    connection events and keystrokes never reach the network. *)
Theorem each_event_sends_at_most_one_request :
  forall (w : world) (e : event) (st : state),
    let calls := net_calls (trace (run w (handle st e) st)) in
    (length calls <= 1)%nat
    /\ (calls <> [] ->
        e = OnButtonClick
        \/ exists data n,
             e = OnCommandFinished data
             /\ SocketMessage.exitCode data = Some (Js.VNumber n)).
Proof.
  intros w e st calls. destruct e as [| |data|data|v|v|];
    try (subst calls; cbn; split; [lia|congruence]).
  - subst calls. cbn [handle].
    destruct (Js.truthy_opt (SocketMessage.output data)) eqn:Ho.
    + rewrite (commandOutput_updates w data st Ho). cbn.
      split; [lia|congruence].
    + rewrite (commandOutput_discards w data st Ho). cbn.
      split; [lia|congruence].
  - subst calls. cbn [handle].
    destruct (SocketMessage.exitCode data) as [[n| | |]|] eqn:Hcode;
      try (rewrite commandFinished_ignores by (rewrite Hcode; congruence);
           cbn; split; [lia|congruence]).
    destruct (commandFinished_effect w data st n Hcode) as (_ & _ & _ & ->).
    split; [cbn; lia|]. intros _. right. exists data, n.
    split; [reflexivity|exact Hcode].
  - split; [|intros _; left; reflexivity]. subst calls. cbn [handle].
    rewrite onClick_dispatch.
    destruct (Js.truthy_opt (activeCommandId st)) eqn:Hactive.
    { destruct (activeCommandId st) as [[|c cid]|] eqn:Hcid;
        try discriminate Hactive.
      rewrite (stopProcess_calls w st (c :: cid) Hcid) by congruence.
      cbn. lia. }
    destruct (isLoading st); [cbn; lia|].
    destruct (Js.trim (gitUrl st)) as [|c u] eqn:Hurl.
    { unfold deployRepo. rewrite Hurl. cbn. lia. }
    assert (Hne : Js.trim (gitUrl st) <> []) by congruence.
    rewrite (deployRepo_calls w st st Hne). cbn. lia.
Qed.

Lemma each_event_sends_at_most_one_request_witness :
  OnCommandFinished Sample.exited0 = OnButtonClick
  \/ exists data n,
       OnCommandFinished Sample.exited0 = OnCommandFinished data
       /\ SocketMessage.exitCode data = Some (Js.VNumber n).
Proof.
  apply (proj2 (each_event_sends_at_most_one_request
                  Sample.w0 (OnCommandFinished Sample.exited0) Sample.st0)).
  vm_compute. discriminate.
Defined.

(** ** Sessions in which every request is answered at once *)

(** A command is active only while the loading flag is set. *)
Lemma step_keeps_active_within_loading (w : world) (e : event) (st : state) :
  Js.truthy_opt (activeCommandId st) && negb (isLoading st) = false ->
  Js.truthy_opt (activeCommandId (step w e st))
    && negb (isLoading (step w e st)) = false.
Proof.
  intros Hinv. destruct e as [| |data|data|v|v|]; try exact Hinv.
  - unfold step. cbn [handle].
    destruct (Js.truthy_opt (SocketMessage.output data)) eqn:Ho.
    + rewrite (commandOutput_updates w data st Ho). exact Hinv.
    + rewrite (commandOutput_discards w data st Ho). exact Hinv.
  - unfold step. cbn [handle].
    destruct (SocketMessage.exitCode data) as [[n| | |]|] eqn:Hcode;
      try (rewrite commandFinished_ignores by (rewrite Hcode; congruence);
           exact Hinv).
    destruct (commandFinished_effect w data st n Hcode) as (_ & -> & _).
    reflexivity.
  - destruct (Js.truthy_opt (activeCommandId st)) eqn:Hactive.
    { unfold step. cbn [handle].
      rewrite onClick_dispatch, Hactive, stopProcess_final, Hactive.
      exact Hinv. }
    destruct (isLoading st) eqn:Hloading.
    { unfold step. cbn [handle]. rewrite onClick_dispatch, Hactive, Hloading.
      cbn. rewrite Hactive. reflexivity. }
    destruct (Js.trim (gitUrl st)) as [|c u] eqn:Hurl.
    { unfold step. cbn [handle]. rewrite onClick_dispatch, Hactive, Hloading.
      unfold deployRepo. rewrite Hurl. cbn. rewrite Hactive. reflexivity. }
    assert (Hne : Js.trim (gitUrl st) <> []) by congruence.
    rewrite (click_starts_deploy w st Hactive Hloading Hne).
    set (r := network w _). set (st1 := mkAppState _ _ _ _ _ _ _).
    destruct (deployAccepted r) eqn:Hacc.
    + destruct r as [resp|err]; [|discriminate Hacc].
      rewrite (deployRepo_settle_accepted w resp st1 Hacc). cbn.
      apply andb_false_r.
    + destruct (deployRepo_settle_failed w r st1 Hacc) as [what ->].
      cbn. rewrite Hactive. reflexivity.
Qed.

(** X14. In a session where every request is answered before the next
    event is delivered, a command is active only while the loading flag is
    set, from the mount on and through any sequence of events; so the
    button never reads [Stop Deployment] and is never red: while a
    deployment runs it reads [Deploying...] on grey. *)
Theorem active_command_only_while_loading :
  forall (w : world) (evs : list (world * event)),
    let st := steps evs (final (run w View.mount View.initialState)) in
    Js.truthy_opt (activeCommandId st) && negb (isLoading st) = false
    /\ View.buttonLabel st <> Js.lit "Stop Deployment"
    /\ View.buttonColour st <> Js.lit "bg-red-500 hover:bg-red-600".
Proof.
  intros w evs st.
  assert (Hinv : Js.truthy_opt (activeCommandId st) && negb (isLoading st)
                 = false).
  { subst st. set (s0 := final (run w View.mount View.initialState)).
    assert (H0 : Js.truthy_opt (activeCommandId s0) && negb (isLoading s0)
                 = false).
    { subst s0. unfold View.mount.
      destruct (fetchDeployedRepos_frame w
                  (View.initialState (M := OutputMessage.t)))
        as (_ & _ & _ & Hactive & Hloading & _).
      rewrite Hactive, Hloading. reflexivity. }
    clearbody s0. revert s0 H0.
    induction evs as [|[w' e] evs IH]; intros s0 H0; [exact H0|].
    cbn [steps]. apply IH. apply step_keeps_active_within_loading, H0. }
  split; [exact Hinv|].
  unfold View.buttonLabel, View.buttonColour.
  destruct (isLoading st).
  - split; intros H; vm_compute in H; discriminate H.
  - rewrite andb_true_r in Hinv. rewrite Hinv.
    split; intros H; vm_compute in H; discriminate H.
Qed.

(** With requests in flight the same does not hold: a terminal event that
    overtakes the answer to the deploy request leaves a command active
    with the loading flag down. *)
Example stop_label_when_answer_is_overtaken :
  View.buttonLabel
    (EventLoop.app (EventLoop.arrivals Sample.overtaken
                      (EventLoop.boot Sample.w0)))
  = Js.lit "Stop Deployment".
Proof. reflexivity. Qed.

(** ** The event loop *)

Import EventLoop.

Lemma or_else_nonempty (v : option Js.str) (d : Js.str) :
  d <> [] -> Js.or_else v d <> [].
Proof.
  intros Hd. destruct v as [[|c s]|]; cbn; congruence.
Qed.

Lemma lit_app_nonempty (s : string) (t : Js.str) :
  s <> EmptyString -> Js.lit s ++ t <> [].
Proof.
  destruct s as [|a s]; [congruence|]. intros _. discriminate.
Qed.

Lemma outputMessage_has_text_and_kind (now : Z) (data : SocketMessage.t) :
  Js.truthy_opt (SocketMessage.output data) = true ->
  OutputMessage.text (outputMessage now data) <> []
  /\ OutputMessage.type (outputMessage now data) <> [].
Proof.
  intros Ho. unfold outputMessage. cbn. split.
  - destruct (SocketMessage.output data) as [[|c s]|]; try discriminate Ho.
    cbn. congruence.
  - apply or_else_nonempty. intros H. vm_compute in H. discriminate H.
Qed.

Lemma finishedMessage_has_text_and_kind (now n : Z) :
  OutputMessage.text (finishedMessage now n) <> []
  /\ OutputMessage.type (finishedMessage now n) <> [].
Proof.
  unfold finishedMessage. cbn. split.
  - apply lit_app_nonempty. discriminate.
  - destruct (n =? 0); intros H; vm_compute in H; discriminate H.
Qed.

Lemma errorMessage_has_text_and_kind (now : Z) (what : Js.str) :
  OutputMessage.text (errorMessage now what) <> []
  /\ OutputMessage.type (errorMessage now what) <> [].
Proof.
  unfold errorMessage. cbn. split.
  - apply lit_app_nonempty. discriminate.
  - intros H. vm_compute in H. discriminate H.
Qed.

Lemma commandOutput_update_Forall (P : OutputMessage.t -> Prop) (now : Z)
    (data : SocketMessage.t) (prev : list OutputMessage.t) :
  Forall P prev ->
  P (outputMessage now data) ->
  Forall P (commandOutput_update now data prev).
Proof.
  intros Hprev Hnew. unfold commandOutput_update.
  assert (Happ : Forall P (prev ++ [outputMessage now data]))
    by (apply Forall_app; split; [exact Hprev|repeat constructor; exact Hnew]).
  destruct (replacesProgress data); [|exact Happ].
  destruct (negb _); [|exact Happ].
  apply Forall_insert; assumption.
Qed.

(** The continuation of [deployRepo] settles. *)
Lemma deployRepo_settle_settles : settles deployRepo_settle.
Proof.
  intros w r st [Hactive Hlog].
  destruct r as [data|err]; cbn [deployRepo_settle].
  - destruct (ApiResponse.success data
              && Js.truthy_opt (ApiResponse.commandId data)) eqn:Hacc.
    + eexists _, _. split; [reflexivity|]. split; [|exact Hlog]. cbn.
      apply andb_prop in Hacc as [_ Hcid].
      destruct (ApiResponse.commandId data) as [[|c s]|]; try discriminate Hcid;
        congruence.
    + eexists _, _. split; [reflexivity|]. split; [exact Hactive|]. cbn.
      apply Forall_app. split; [exact Hlog|].
      repeat constructor; apply errorMessage_has_text_and_kind.
  - eexists _, _. split; [reflexivity|]. split; [exact Hactive|]. cbn.
    apply Forall_app. split; [exact Hlog|].
    repeat constructor; apply errorMessage_has_text_and_kind.
Qed.

(** Every handler, run up to its first [await], leaves a sound machine. *)
Lemma park_handle_sound (w : world) (e : event) (st : state)
    (waiting : list (request * (fetch_outcome -> handler))) :
  wellFormed st ->
  Forall (fun rk => settles (snd rk)) waiting ->
  sound (park (until_await w (handle st e) st) waiting).
Proof.
  intros Hst Hwaiting. pose proof Hst as [Hactive Hlog].
  destruct e as [| |data|data|v|v|]; try (split; [exact Hst|exact Hwaiting]).
  - cbn [handle]. unfold commandOutput.
    destruct (Js.truthy_opt (SocketMessage.output data)) eqn:Ho;
      [|split; [exact Hst|exact Hwaiting]].
    split; [|exact Hwaiting]. split; [exact Hactive|]. cbn.
    apply commandOutput_update_Forall; [exact Hlog|].
    apply outputMessage_has_text_and_kind, Ho.
  - cbn [handle]. unfold commandFinished.
    destruct (Js.as_number (SocketMessage.exitCode data)) as [n|];
      [|split; [exact Hst|exact Hwaiting]].
    split; cbn.
    + split; [discriminate|]. cbn. apply Forall_app. split; [exact Hlog|].
      repeat constructor; apply finishedMessage_has_text_and_kind.
    + apply Forall_app. split; [exact Hwaiting|]. repeat constructor. cbn.
      intros w' r st' Hst'. destruct r as [resp|err]; cbn.
      * destruct (ApiResponse.repos resp); eexists _, _;
          (split; [reflexivity|exact Hst']).
      * eexists _, _. split; [reflexivity|exact Hst'].
  - cbn [handle]. rewrite onClick_dispatch.
    destruct (Js.truthy_opt (activeCommandId st)) eqn:Hidle.
    + unfold stopProcess.
      destruct (activeCommandId st) as [[|c s]|]; try discriminate Hidle.
      split; cbn; [exact Hst|].
      apply Forall_app. split; [exact Hwaiting|]. repeat constructor. cbn.
      intros w' r st' Hst'. destruct r as [resp|err]; cbn.
      * destruct (ApiResponse.success resp); eexists _, _;
          (split; [reflexivity|exact Hst']).
      * eexists _, _. split; [reflexivity|exact Hst'].
    + destruct (isLoading st); [split; [exact Hst|exact Hwaiting]|].
      destruct (Js.trim (gitUrl st)) as [|c u] eqn:Hurl.
      { unfold deployRepo. rewrite Hurl. split; [exact Hst|exact Hwaiting]. }
      rewrite deployRepo_until_await by congruence. split; cbn.
      * split; [exact Hactive|constructor].
      * apply Forall_app. split; [exact Hwaiting|]. repeat constructor.
        exact deployRepo_settle_settles.
Qed.

Lemma arrive_sound (w : world) (a : arrival) (m : machine) :
  sound m -> sound (arrive w a m).
Proof.
  intros [Hst Hwaiting]. destruct a as [e|i r]; cbn [arrive].
  - apply park_handle_sound; assumption.
  - destruct (inFlight m !! i) as [[req k]|] eqn:Hk;
      [|split; assumption].
    pose proof (Forall_lookup_1 _ _ _ _ Hwaiting Hk) as Hsettles.
    cbn [snd] in Hsettles.
    destruct (Hsettles w r (app m) Hst) as (st' & tr & -> & Hst').
    split; [exact Hst'|]. cbn. apply Forall_delete, Hwaiting.
Qed.

Lemma boot_sound (w : world) : sound (boot w).
Proof.
  split; cbn.
  - split; [discriminate|constructor].
  - repeat constructor. cbn. intros w' r st Hst. destruct r as [resp|err]; cbn.
    + destruct (ApiResponse.repos resp); eexists _, _;
        (split; [reflexivity|exact Hst]).
    + eexists _, _. split; [reflexivity|exact Hst].
Qed.

Lemma arrivals_sound (l : list (world * arrival)) (m : machine) :
  sound m -> sound (arrivals l m).
Proof.
  revert m. induction l as [|[w a] l IH]; intros m Hm; [exact Hm|].
  cbn [arrivals]. apply IH, arrive_sound, Hm.
Qed.

(** X15. Whatever arrives and in whatever order, events and answers to
    requests in flight alike, the state stays well formed from the mount
    on: the active command is never the empty string, and every line of
    the log has a non-empty text and a non-empty kind. *)
Theorem state_stays_well_formed :
  forall (w : world) (l : list (world * arrival)),
    let st := app (arrivals l (boot w)) in
    activeCommandId st <> Some []
    /\ Forall (fun msg => OutputMessage.text msg <> []
                          /\ OutputMessage.type msg <> []) (output st).
Proof.
  intros w l. exact (proj1 (arrivals_sound l (boot w) (boot_sound w))).
Qed.

(** X16. Nothing is retried and no answer leads to another request: from
    the mount on, an answer to a request in flight takes that request away
    and adds none, and a delivered event adds at most one. *)
Theorem answers_never_send_requests :
  forall (w : world) (l : list (world * arrival)) (w' : world),
    let m := arrivals l (boot w) in
    (forall e,
        (length (inFlight m) <= length (inFlight (arrive w' (Delivered e) m))
         <= length (inFlight m) + 1)%nat)
    /\ (forall i r,
          (i < length (inFlight m))%nat ->
          inFlight (arrive w' (Answered i r) m) = delete i (inFlight m)
          /\ length (inFlight (arrive w' (Answered i r) m))
             = (length (inFlight m) - 1)%nat).
Proof.
  intros w l w' m.
  destruct (arrivals_sound l (boot w) (boot_sound w)) as [Hst Hwaiting].
  fold m in Hst, Hwaiting. split.
  - intros e. cbn [arrive].
    destruct (until_await w' (handle (app m) e) (app m)) as [[[[]|req k] st] tr];
      cbn; rewrite ?length_app; cbn; lia.
  - intros i r Hi. cbn [arrive].
    destruct (lookup_lt_is_Some_2 _ _ Hi) as [[req k] Hk]. rewrite Hk.
    pose proof (Forall_lookup_1 _ _ _ _ Hwaiting Hk) as Hsettles.
    cbn [snd] in Hsettles.
    destruct (Hsettles w' r (app m) Hst) as (st' & tr & -> & _). cbn.
    split; [reflexivity|]. rewrite length_delete by (exists (req, k); exact Hk).
    reflexivity.
Qed.

Lemma answers_never_send_requests_witness :
  length (inFlight (arrive Sample.w0 (Answered 0 (Rejected NotAnError))
                      (arrivals [] (boot Sample.w0))))
  = 0%nat.
Proof.
  apply (proj2 (answers_never_send_requests Sample.w0 [] Sample.w0)
           0%nat (Rejected NotAnError)).
  cbn. lia.
Defined.

(** ** The two revisions *)

Import Revisions.

Lemma appendsOnly_update (now : Z) (data : SocketMessage.t) (st : state) :
  appendsOnly (OnCommandOutput data) st = true ->
  commandOutput_update now data (output st)
  = output st ++ [outputMessage now data].
Proof.
  cbn [appendsOnly]. unfold commandOutput_update. intros H.
  destruct (replacesProgress data); [|reflexivity].
  cbn in H. rewrite H. reflexivity.
Qed.

(** X17. The earlier revision, [src/App.tsx], does what the later one
    does with the flags forgotten: on every event but a progress update
    that finds a progress line to replace, both send the same requests,
    write the same console lines and leave the same state, entry by
    entry. *)
Theorem earlier_revision_is_the_later_without_flags :
  forall (w : world) (e : event) (st : state),
    appendsOnly e st = true ->
    run w (AppTsxController.handle (forgetState st) (forgetEvent e))
      (forgetState st)
    = (tt, forgetState (final (run w (handle st e) st)),
       trace (run w (handle st e) st)).
Proof.
  intros w e st Happ. destruct e as [| |data|data|v|v|]; try reflexivity.
  - cbn [forgetEvent AppTsxController.handle handle].
    unfold AppTsx.commandOutput. cbn [forgetPayload AppTsx.SocketMessage.output].
    destruct (Js.truthy_opt (SocketMessage.output data)) eqn:Ho.
    + rewrite (commandOutput_updates w data st Ho).
      rewrite (appendsOnly_update _ data st Happ).
      destruct (SocketMessage.output data) as [[|c text]|] eqn:Hout;
        try discriminate Ho.
      cbn. unfold forgetState. cbn. rewrite fmap_app. cbn.
      unfold forgetMessage, outputMessage, AppTsx.outputMessage. cbn.
      rewrite Hout. reflexivity.
    + rewrite (commandOutput_discards w data st Ho).
      destruct (SocketMessage.output data) as [[|c text]|];
        try discriminate Ho; reflexivity.
  - cbn [forgetEvent AppTsxController.handle handle].
    unfold AppTsx.commandFinished, commandFinished.
    cbn [forgetPayload AppTsx.SocketMessage.exitCode].
    destruct (Js.as_number (SocketMessage.exitCode data)) as [n|];
      [|reflexivity].
    cbn. destruct (network w GetRepos) as [resp|err]; cbn.
    + destruct (ApiResponse.repos resp); cbn; unfold forgetState; cbn;
        rewrite fmap_app; reflexivity.
    + unfold forgetState; cbn; rewrite fmap_app; reflexivity.
  - cbn [forgetEvent AppTsxController.handle handle].
    unfold AppTsxController.onClick, onClick.
    change (isLoading (forgetState st)) with (isLoading st).
    change (activeCommandId (forgetState st)) with (activeCommandId st).
    destruct (isLoading st && negb (Js.truthy_opt (activeCommandId st)));
      [reflexivity|].
    destruct (Js.truthy_opt (activeCommandId st)).
    + unfold AppTsxController.stopProcess, stopProcess.
      change (activeCommandId (forgetState st)) with (activeCommandId st).
      destruct (activeCommandId st) as [cid|]; [|reflexivity].
      destruct (negb (Js.truthy cid)); [reflexivity|]. cbn.
      destruct (network w (PostStop cid)) as [resp|err]; cbn;
        [destruct (ApiResponse.success resp)|]; reflexivity.
    + unfold AppTsxController.deployRepo, deployRepo.
      change (gitUrl (forgetState st)) with (gitUrl st).
      change (branch (forgetState st)) with (branch st).
      destruct (negb (Js.truthy (Js.trim (gitUrl st)))); [reflexivity|].
      cbn. destruct (network w _) as [resp|err]; cbn.
      * destruct (ApiResponse.success resp
                  && Js.truthy_opt (ApiResponse.commandId resp));
          reflexivity.
      * reflexivity.
Qed.

Lemma earlier_revision_is_the_later_without_flags_witness :
  run Sample.w_accept
    (AppTsxController.handle (forgetState Sample.ready)
       (forgetEvent OnButtonClick)) (forgetState Sample.ready)
  = (tt,
     forgetState
       (final (run Sample.w_accept (handle Sample.ready OnButtonClick)
                 Sample.ready)),
     trace (run Sample.w_accept (handle Sample.ready OnButtonClick)
              Sample.ready)).
Proof.
  exact (earlier_revision_is_the_later_without_flags
           Sample.w_accept OnButtonClick Sample.ready eq_refl).
Defined.

(** X18. On one payload as it travels, a progress update with text for a
    log that holds a progress line: the later revision keeps the length
    of the log, the earlier one, [src/App.tsx], appends a line. *)
Theorem revisions_part_on_progress_replacement :
  forall (w : world) (p : Wire.t) (st : state) (k : nat)
         (e : OutputMessage.t),
    Js.truthy_opt (Wire.output p) = true ->
    Wire.isProgress p = Some true ->
    Wire.replaceLast p = Some true ->
    output st !! k = Some e ->
    isProgressEntry e = true ->
    length (output (step w (OnCommandOutput (Wire.later p)) st))
    = length (output st)
    /\ length
         (output
            (final (run w (AppTsx.commandOutput (Wire.earlier p))
                      (forgetState st))))
       = S (length (output st)).
Proof.
  intros w p st k e Ho Hip Hrl He Hprog. split.
  - rewrite step_commandOutput_output.
    unfold commandOutput_update, replacesProgress, Wire.later.
    cbn [SocketMessage.output SocketMessage.isProgress
         SocketMessage.replaceLast].
    rewrite Ho, Hip, Hrl. cbn [Js.truthy_flag andb].
    destruct (findLastIndex_from_spec (output st) isProgressEntry
                (length (output st)))
      as [[_ Hno]|(j & u & Hr & _)].
    + rewrite (Hno k e) in Hprog; [discriminate Hprog| |exact He].
      apply lookup_lt_Some in He. exact He.
    + unfold findLastIndex. rewrite Hr.
      replace (Z.of_nat j =? -1) with false
        by (symmetry; apply Z.eqb_neq; lia).
      apply length_insert.
  - unfold AppTsx.commandOutput.
    cbn [Wire.earlier AppTsx.SocketMessage.output].
    destruct (Wire.output p) as [[|c text]|]; try discriminate Ho.
    cbn. rewrite length_app, length_fmap. cbn. lia.
Qed.

Lemma revisions_part_on_progress_replacement_witness :
  length (output (step Sample.w0 (OnCommandOutput (Wire.later Sample.wire55))
                    Sample.st0))
  = length (output Sample.st0)
  /\ length
       (output
          (final (run Sample.w0
                    (AppTsx.commandOutput (Wire.earlier Sample.wire55))
                    (forgetState Sample.st0))))
     = S (length (output Sample.st0)).
Proof.
  exact (revisions_part_on_progress_replacement
           Sample.w0 Sample.wire55 Sample.st0 0%nat
           (OutputMessage.mk 1 (Js.lit "10%") (Js.lit "stdout")
              (Some true) (Some true))
           eq_refl eq_refl eq_refl eq_refl eq_refl).
Defined.
